(** * WebSheet (ua-oit-se/websheets, src/index.js): filter / sort / option pipeline

    A shallow embedding of the [WebSheet] class of [src/index.js] (the current
    variant, lines 52-326) together with the few JavaScript and DOM built-ins
    it calls, followed by the properties of the specification that were
    checked against it.

    Conventions of the embedding:
    - a JavaScript string is a [string]; its code units are the 8-bit
      characters of [ascii] (the Latin-1 range of UTF-16 code units);
    - a row ([r.cells]) is a [gmap string string]; [r !! col] is [r[col]],
      with [None] standing for [undefined];
    - a computation that may [throw] returns an [outcome];
    - the page is a store of controls indexed by element identifiers, so that
      two closures holding the same element observe the same value. *)

From Stdlib Require Import Ascii ZArith Sorted Permutation.
From stdpp Require Import gmap strings.

Local Open Scope string_scope.
Local Open Scope Z_scope.

(** ** Exceptions and outcomes *)

Inductive Exn : Type :=
  | Error (msg : string)       (* [new Error(msg)] *)
  | TypeError (msg : string).  (* raised by the runtime on [undefined.x] *)

Inductive outcome (A : Type) : Type :=
  | Ok (a : A)
  | Throw (e : Exn).
Arguments Ok {A} a.
Arguments Throw {A} e.

#[global] Instance outcome_ret : MRet outcome := fun A a => Ok a.
#[global] Instance outcome_bind : MBind outcome := fun A B k m =>
  match m with
  | Ok a => k a
  | Throw e => Throw e
  end.

(** ** JavaScript built-ins used by the class *)

Module JS.

(** *** String.prototype.trim

    White space and line terminators of ECMAScript that fit in one 8-bit
    code unit: TAB, LF, VT, FF, CR, SP and NBSP. *)
Definition isWhiteSpace (c : ascii) : bool :=
  match c with
  | "009" | "010" | "011" | "012" | "013" | " " | "160" => true
  | _ => false
  end%char.

Fixpoint trimStart (s : string) : string :=
  match s with
  | String c s' => if isWhiteSpace c then trimStart s' else s
  | EmptyString => EmptyString
  end.

Fixpoint trimEnd (s : string) : string :=
  match s with
  | String c s' =>
      match trimEnd s' with
      | EmptyString => if isWhiteSpace c then EmptyString else String c EmptyString
      | t => String c t
      end
  | EmptyString => EmptyString
  end.

Definition trim (s : string) : string := trimEnd (trimStart s).

(** *** String.prototype.toLowerCase (Latin-1 range) *)
Definition lowerChar (c : ascii) : ascii :=
  let n := N_of_ascii c in
  if ((65 <=? n) && (n <=? 90))%N then ascii_of_N (n + 32)
  else if ((192 <=? n) && (n <=? 222) && negb (n =? 215))%N then ascii_of_N (n + 32)
  else c.

Fixpoint toLowerCase (s : string) : string :=
  match s with
  | String c s' => String (lowerChar c) (toLowerCase s')
  | EmptyString => EmptyString
  end.

(** *** String.prototype.includes *)
Fixpoint includes (s sub : string) : bool :=
  String.prefix sub s ||
  match s with
  | String _ s' => includes s' sub
  | EmptyString => false
  end.

(** *** String.prototype.split (string separator, no limit)

    [split_go sep skip cur s] scans [s]; [cur] is the segment read so far and
    [skip] counts the code units of a matched separator still to be passed
    over. *)
Fixpoint split_go (sep : string) (skip : nat) (cur : string) (s : string)
  : list string :=
  match s with
  | EmptyString => [cur]
  | String c s' =>
      match skip with
      | S k => split_go sep k cur s'
      | O =>
          if String.prefix sep s
          then cur :: split_go sep (String.length sep - 1) EmptyString s'
          else split_go sep 0 (cur +:+ String c EmptyString) s'
      end
  end.

Fixpoint chars (s : string) : list string :=
  match s with
  | String c s' => String c EmptyString :: chars s'
  | EmptyString => []
  end.

Definition split (sep : string) (s : string) : list string :=
  match sep with
  | EmptyString => chars s
  | _ => split_go sep 0 EmptyString s
  end.

(** *** Array.prototype.findIndex, with a callback that may throw *)
Fixpoint findIndex_from {A} (p : A -> outcome bool) (l : list A) (i : Z)
  : outcome Z :=
  match l with
  | [] => Ok (-1)
  | x :: l' =>
      b ← p x;
      if b : bool then Ok i else findIndex_from p l' (i + 1)
  end.

Definition findIndex {A} (p : A -> outcome bool) (l : list A) : outcome Z :=
  findIndex_from p l 0.

(** *** Array.prototype.find (pure callback) *)
Fixpoint find {A} (p : A -> bool) (l : list A) : option A :=
  match l with
  | [] => None
  | x :: l' => if p x then Some x else find p l'
  end.

(** *** Array.prototype.filter, with a callback that may throw *)
Fixpoint filter {A} (p : A -> outcome bool) (l : list A) : outcome (list A) :=
  match l with
  | [] => Ok []
  | x :: l' =>
      b ← p x;
      rest ← filter p l';
      Ok (if b : bool then x :: rest else rest)
  end.

(** *** Array.prototype.sort

    ECMAScript requires the sort to be stable; for a consistent comparator
    this fixes the result, which is computed here by insertion from the
    right: an element moves past exactly the elements it compares greater
    than. *)
Fixpoint sort_insert {A} (cmp : A -> A -> Z) (x : A) (l : list A) : list A :=
  match l with
  | [] => [x]
  | y :: l' => if cmp x y <=? 0 then x :: y :: l' else y :: sort_insert cmp x l'
  end.

Fixpoint sort {A} (cmp : A -> A -> Z) (l : list A) : list A :=
  match l with
  | [] => []
  | x :: l' => sort_insert cmp x (sort cmp l')
  end.

(** The comparison used by [sort()] without argument: [undefined] goes
    last, strings are compared by code units. *)
Definition defaultCompare (x y : option string) : Z :=
  match x, y with
  | None, None => 0
  | None, Some _ => 1
  | Some _, None => -1
  | Some a, Some b =>
      match String.compare a b with
      | Lt => -1
      | Eq => 0
      | Gt => 1
      end
  end.

(** *** Set: insertion-ordered, without duplicates *)
Definition Set_add {A} `{EqDecision A} (x : A) (s : list A) : list A :=
  if bool_decide (x ∈ s) then s else s ++ [x].

End JS.

(** ** The page: the controls the class reads and rebuilds *)

Module Dom.

(** An [<option>] element: its [value] and its [innerHTML]. *)
Record OptionElement : Type := mkOption {
  opt_value : string;
  opt_innerHTML : string
}.

(** A bound control is an [HTMLSelectElement] (its options and the index of
    the selected one) or an [HTMLInputElement] (its text). *)
Inductive Element : Type :=
  | Select (opts : list OptionElement) (selectedIndex : option nat)
  | Input (text : string).

Definition ElemId : Type := nat.

(** The controls of the page, by identity. *)
Definition Page : Type := ElemId -> Element.

Definition update (e : ElemId) (x : Element) (p : Page) : Page :=
  fun e' => if bool_decide (e' = e) then x else p e'.

(** [element.value]: of a select, the value of the selected option, or the
    empty string when none is selected. *)
Definition value (el : Element) : string :=
  match el with
  | Select opts (Some i) =>
      match opts !! i with
      | Some o => opt_value o
      | None => EmptyString
      end
  | Select _ None => EmptyString
  | Input text => text
  end.

(** [element.options]: [None] is [undefined] (not a select). *)
Definition options (el : Element) : option (list OptionElement) :=
  match el with
  | Select opts _ => Some opts
  | Input _ => None
  end.

Fixpoint indexOfValue (v : string) (opts : list OptionElement) : option nat :=
  match opts with
  | [] => None
  | o :: opts' =>
      if String.eqb (opt_value o) v then Some O
      else S <$> indexOfValue v opts'
  end.

(** [element.value = v]: a select selects its first option of that value,
    and none when there is no such option. *)
Definition set_value (v : string) (el : Element) : Element :=
  match el with
  | Select opts _ => Select opts (indexOfValue v opts)
  | Input _ => Input v
  end.

(** [while (element.firstChild) element.removeChild(element.firstChild)] *)
Definition removeChildren (el : Element) : Element :=
  match el with
  | Select _ _ => Select [] None
  | Input text => Input text
  end.

(** [element.appendChild(opt)]: a drop-down select with nothing selected
    selects its first option; the class assigns [element.value] after every
    rebuild, so that nothing below depends on this default. *)
Definition appendChild (o : OptionElement) (el : Element) : Element :=
  match el with
  | Select opts sel =>
      Select (opts ++ [o]) (match sel with Some i => Some i | None => Some O end)
  | Input text => Input text
  end.

End Dom.

(** ** The class *)

Module WebSheet.
Import Dom.

(** A row of the sheet: column label to cell text. *)
Abbreviation Row := (gmap string string).

(** An element of [response.rows]. *)
Record RawRow : Type := { cells : Row }.

(** [webSheetFilterCallback]: rows in, rows out; the built-in filters read
    their control on the page each time they run. *)
Definition webSheetFilterCallback : Type :=
  Page -> list Row -> outcome (list Row).

Record webSheetInput : Type := {
  element : ElemId;
  column : string;
  deliminator : option string   (* [None]: null or undefined *)
}.

Record webSheetSort : Type := {
  label : string;
  compare : Row -> Row -> Z
}.

(** [this.sorting] *)
Record Sorting : Type := {
  sort_element : ElemId;
  sort_options : list webSheetSort
}.

(** What [options.template] may be. *)
Inductive TemplateSource : Type :=
  | TFunction (f : Row -> string)
  | TElement (innerHTML : string)
  | TString (source : string).

(** [webSheetOptions]; [None] is a field that is absent, undefined or null
    (what [== null] accepts). *)
Record webSheetOptions : Type := {
  sheet : option string;
  template : option TemplateSource;
  output : option ElemId;
  query : option string;
  labels : option (list string);
  errorCallback : option (Exn -> list Exn -> list Exn)
}.

(** The fields of an instance. [rows] is undefined in the source until the
    first load; the model starts from the empty sequence. *)
Record t : Type := {
  options : webSheetOptions;
  filters : list webSheetFilterCallback;
  inputs : list webSheetInput;
  template_fn : Row -> string;
  errorCallback_fn : Exn -> list Exn -> list Exn;
  sorting : option Sorting;
  rows : list Row
}.

(** Values a caller may pass where a filter function is expected. *)
Inductive Value : Type :=
  | VUndefined
  | VNull
  | VBoolean (b : bool)
  | VNumber (n : Z)
  | VString (s : string)
  | VObject
  | VFunction (f : webSheetFilterCallback).

Definition typeof (v : Value) : string :=
  match v with
  | VUndefined => "undefined"
  | VNull => "object"
  | VBoolean _ => "boolean"
  | VNumber _ => "number"
  | VString _ => "string"
  | VObject => "object"
  | VFunction _ => "function"
  end.

(** The instance, the page it is wired to, the content of the output
    surfaces and the errors handed to the console. *)
Record World : Type := {
  this : t;
  page : Page;
  surface : gmap nat string;
  console : list Exn
}.

(** Methods: state passing with exceptions; what was written before a
    [throw] stays written. *)
Definition M (A : Type) : Type := World -> outcome A * World.

Definition ret {A} (a : A) : M A := fun w => (Ok a, w).
Definition bind {A B} (m : M A) (k : A -> M B) : M B := fun w =>
  match m w with
  | (Ok a, w') => k a w'
  | (Throw e, w') => (Throw e, w')
  end.
Definition throw {A} (e : Exn) : M A := fun w => (Throw e, w).
Definition modify (f : World -> World) : M unit := fun w => (Ok tt, f w).

Definition set_this (f : t -> t) (w : World) : World :=
  {| this := f (this w); page := page w; surface := surface w; console := console w |}.
Definition set_page (f : Page -> Page) (w : World) : World :=
  {| this := this w; page := f (page w); surface := surface w; console := console w |}.

Definition console_error (e : Exn) (log : list Exn) : list Exn := log ++ [e].

(** *** constructor (lines 57-100); [compile] is [Handlebars.compile] *)
Definition new (compile : string -> Row -> string) (options : webSheetOptions)
  : outcome t :=
  match sheet options with
  | None => Throw (Error "WebSheet: Provide a Google Sheet URL")
  | Some _ =>
  match template options with
  | None => Throw (Error "WebSheet: Provide a Handlebars template")
  | Some tpl =>
  match query options with
  | None => Throw (Error "WebSheet: Provide a query")
  | Some _ =>
  match labels options with
  | None => Throw (Error "WebSheet: Provide a list of labels for your selected rows")
  | Some _ =>
      Ok {| options := options;
            filters := [];
            inputs := [];
            template_fn :=
              match tpl with
              | TFunction f => f
              | TElement innerHTML => compile innerHTML
              | TString source => compile source
              end;
            errorCallback_fn :=
              match errorCallback options with
              | Some f => f
              | None => console_error
              end;
            sorting := None;
            rows := [] |}
  end end end end.

(** *** createFilter (lines 107-113) *)
Definition push_filter (f : webSheetFilterCallback) (o : t) : t :=
  {| options := options o; filters := filters o ++ [f]; inputs := inputs o;
     template_fn := template_fn o; errorCallback_fn := errorCallback_fn o;
     sorting := sorting o; rows := rows o |}.

Definition createFilter (filterFunction : Value) : M unit :=
  match filterFunction with
  | VFunction f => modify (set_this (push_filter f))
  | _ => throw (Error "WebSheet(addSearchFilter): Provide a valid HTML text input")
  end.

(** *** The row filter of sheetrockCallback (line 140) *)
Definition keepRow (labels : list string) (r : Row) : bool :=
  forallb (fun l => bool_decide (Some l ≠ r !! l)) labels.

Definition loadRows (labels : list string) (response_rows : list RawRow)
  : list Row :=
  List.filter (keepRow labels) (map cells response_rows).

(** *** get filteredRows (lines 151-164) *)
Fixpoint runFilters (p : Page) (fs : list webSheetFilterCallback)
  (filteredRows : list Row) : outcome (list Row) :=
  match fs with
  | [] => Ok filteredRows
  | filter :: fs' =>
      filteredRows' ← filter p filteredRows;
      runFilters p fs' filteredRows'
  end.

Definition sortStep (p : Page) (sorting : option Sorting)
  (filteredRows : list Row) : outcome (list Row) :=
  match sorting with
  | Some s =>
      let userSort := value (p (sort_element s)) in
      match JS.find (fun v => String.eqb (label v) userSort) (sort_options s) with
      | Some sortFunc => Ok (JS.sort (compare sortFunc) filteredRows)
      | None =>
          Throw (TypeError "Cannot read properties of undefined (reading 'compare')")
      end
  | None => Ok filteredRows
  end.

Definition filteredRows (o : t) (p : Page) : outcome (list Row) :=
  filtered ← runFilters p (filters o) (rows o);
  sortStep p (sorting o) filtered.

(** *** populateInputs (lines 169-215) *)

(** The [Set] of option values gathered from the rows (lines 176-189). *)
Fixpoint collectOptions (column : string) (deliminator : option string)
  (rows : list Row) (options : list (option string))
  : outcome (list (option string)) :=
  match rows with
  | [] => Ok options
  | row :: rows' =>
      match deliminator with
      | None => collectOptions column deliminator rows' (JS.Set_add (row !! column) options)
      | Some d =>
          match row !! column with
          | None =>
              Throw (TypeError "Cannot read properties of undefined (reading 'split')")
          | Some cell =>
              let values := JS.split d cell in
              collectOptions column deliminator rows'
                (fold_left (fun opts value => JS.Set_add (Some (JS.trim value)) opts)
                   values options)
          end
      end
  end.

(** A value assigned to a DOM string attribute. *)
Definition toDOMString (o : option string) : string :=
  match o with
  | Some s => s
  | None => "undefined"
  end.

Definition createOption (o : option string) : OptionElement :=
  {| opt_value := toDOMString o;
     opt_innerHTML :=
       if bool_decide (o = Some EmptyString) then "Not specified" else toDOMString o |}.

(** One turn of the loop over [this.inputs]. *)
Definition populateInput (rows : list Row) (input : webSheetInput) (p : Page)
  : outcome Page :=
  let el := p (element input) in
  let selectionBackup := value el in
  match Dom.options el with
  | None =>
      Throw (TypeError "Cannot read properties of undefined (reading 'length')")
  | Some old =>
      let selectionBackup :=
        if (length old =? 0)%nat then "Any" else selectionBackup in
      options ← collectOptions (column input) (deliminator input) rows [];
      let optArray := Some "Any" :: JS.sort JS.defaultCompare options in
      let el := removeChildren el in
      let el := fold_left (fun el o => appendChild (createOption o) el) optArray el in
      match
        JS.find (fun o => String.eqb (opt_value o) selectionBackup)
          (default [] (Dom.options el))
      with
      | None => Ok (update (element input) (set_value "Any" el) p)
      | Some _ => Ok (update (element input) (set_value selectionBackup el) p)
      end
  end.

Fixpoint populateInputs_loop (rows : list Row) (inputs : list webSheetInput)
  (p : Page) : outcome unit * Page :=
  match inputs with
  | [] => (Ok tt, p)
  | input :: inputs' =>
      match populateInput rows input p with
      | Ok p' => populateInputs_loop rows inputs' p'
      | Throw e => (Throw e, p)
      end
  end.

Definition populateInputs : M unit := fun w =>
  let '(r, p) := populateInputs_loop (rows (this w)) (inputs (this w)) (page w) in
  (r, set_page (fun _ => p) w).

(** *** populateResults (lines 220-226) *)
Definition populateResults : M unit := fun w =>
  match filteredRows (this w) (page w) with
  | Throw e => (Throw e, w)
  | Ok rs =>
      let newInner :=
        fold_left (fun acc row => acc +:+ template_fn (this w) row) rs EmptyString in
      match output (options (this w)) with
      | None =>
          (Throw (TypeError "Cannot set properties of undefined (setting 'innerHTML')"), w)
      | Some out =>
          (Ok tt,
           {| this := this w; page := page w;
              surface := <[out := newInner]> (surface w); console := console w |})
      end
  end.

(** *** selectColumnFilter (lines 235-262) *)
Definition columnFilter (element : ElemId) (column : string)
  (separator : option string) : webSheetFilterCallback := fun p rows =>
  let selectedValue := value (p element) in
  if String.eqb selectedValue "Any" then Ok rows
  else
    match separator with
    | None =>
        JS.filter (fun r => Ok (bool_decide (r !! column = Some selectedValue))) rows
    | Some sep =>
        JS.filter (fun row =>
          match row !! column with
          | None =>
              Throw (TypeError "Cannot read properties of undefined (reading 'split')")
          | Some cell =>
              i ← JS.findIndex (fun v => Ok (String.eqb (JS.trim v) selectedValue))
                    (JS.split sep cell);
              Ok (negb (i =? -1))
          end) rows
    end.

Definition push_input (i : webSheetInput) (o : t) : t :=
  {| options := options o; filters := filters o; inputs := inputs o ++ [i];
     template_fn := template_fn o; errorCallback_fn := errorCallback_fn o;
     sorting := sorting o; rows := rows o |}.

Definition selectColumnFilter (element : ElemId) (column : string)
  (separator : option string) : M unit :=
  bind (createFilter (VFunction (columnFilter element column separator)))
    (fun _ =>
       modify (set_this (push_input
         {| element := element; column := column; deliminator := separator |}))).

(** *** searchFilter (lines 269-288) *)
Definition searchCallback (element : ElemId) (columns : list string)
  : webSheetFilterCallback := fun p rows =>
  let searchString := JS.toLowerCase (JS.trim (value (p element))) in
  if String.eqb searchString EmptyString then Ok rows
  else
    JS.filter (fun r =>
      i ← JS.findIndex (fun col =>
             match r !! col with
             | None =>
                 Throw (TypeError
                   "Cannot read properties of undefined (reading 'toLowerCase')")
             | Some cell => Ok (JS.includes (JS.toLowerCase cell) searchString)
             end) columns;
      Ok (negb (i =? -1))) rows.

Definition searchFilter (element : ElemId) (columns : list string) : M unit :=
  createFilter (VFunction (searchCallback element columns)).

(** *** setSortSelect (lines 296-316) *)
Definition set_sorting (s : Sorting) (o : t) : t :=
  {| options := options o; filters := filters o; inputs := inputs o;
     template_fn := template_fn o; errorCallback_fn := errorCallback_fn o;
     sorting := Some s; rows := rows o |}.

Definition setSortSelect (element : ElemId) (options : list webSheetSort)
  : M unit :=
  bind
    (modify (set_page (fun p =>
       update element
         (fold_left
            (fun el sort => appendChild (mkOption (label sort) (label sort)) el)
            options (p element)) p)))
    (fun _ =>
       modify (set_this (set_sorting
         {| sort_element := element; sort_options := options |}))).

(** *** sheetrockCallback (lines 127-145) *)
Definition set_rows (rs : list Row) (o : t) : t :=
  {| options := options o; filters := filters o; inputs := inputs o;
     template_fn := template_fn o; errorCallback_fn := errorCallback_fn o;
     sorting := sorting o; rows := rs |}.

Definition sheetrockCallback (err : option Exn) (response_rows : list RawRow)
  : M unit :=
  match err with
  | Some e => fun w =>
      (Ok tt,
       {| this := this w; page := page w; surface := surface w;
          console := errorCallback_fn (this w) e (console w) |})
  | None => fun w =>
      match labels (options (this w)) with
      | None =>
          (Throw (TypeError "Cannot read properties of undefined (reading 'every')"), w)
      | Some ls =>
          bind (modify (set_this (set_rows (loadRows ls response_rows))))
            (fun _ => bind populateInputs (fun _ => populateResults)) w
      end
  end.

End WebSheet.

(** ** The earlier variant of the class (src/index.js, lines 356-575)

    It differs from the current one in populateInputs, which does not clear
    the select before appending the new options (lines 459-500); its calls to
    console.log only write to the browser's log and are left out. *)

Module Legacy.
Import Dom WebSheet.

(** One turn of the loop over [this.inputs]. *)
Definition populateInput (rows : list Row) (input : webSheetInput) (p : Page)
  : outcome Page :=
  let el := p (element input) in
  let selectionBackup := value el in
  match Dom.options el with
  | None =>
      Throw (TypeError "Cannot read properties of undefined (reading 'length')")
  | Some old =>
      let selectionBackup :=
        if (length old =? 0)%nat then "Any" else selectionBackup in
      options ← collectOptions (column input) (deliminator input) rows [];
      let optArray := Some "Any" :: JS.sort JS.defaultCompare options in
      let el := fold_left (fun el o => appendChild (createOption o) el) optArray el in
      match
        JS.find (fun o => String.eqb (opt_value o) selectionBackup)
          (default [] (Dom.options el))
      with
      | None => Ok (update (element input) (set_value "Any" el) p)
      | Some _ => Ok (update (element input) (set_value selectionBackup el) p)
      end
  end.

Fixpoint populateInputs_loop (rows : list Row) (inputs : list webSheetInput)
  (p : Page) : outcome unit * Page :=
  match inputs with
  | [] => (Ok tt, p)
  | input :: inputs' =>
      match populateInput rows input p with
      | Ok p' => populateInputs_loop rows inputs' p'
      | Throw e => (Throw e, p)
      end
  end.

End Legacy.

(** ** Notions used to state the properties *)

(** Whether a computation returned. *)
Definition succeeded {A} (r : outcome A) : bool :=
  match r with
  | Ok _ => true
  | Throw _ => false
  end.

(** A comparator is consistent (ECMAScript, Array.prototype.sort) when its
    sign is antisymmetric and "not greater" is transitive. *)
Definition consistent {A} (cmp : A -> A -> Z) : Prop :=
  (forall a b, cmp a b < 0 <-> 0 < cmp b a) /\
  (forall a b c, cmp a b <= 0 -> cmp b c <= 0 -> cmp a c <= 0).

(** A filter that always returns: a function of the page and the rows. *)
Definition totalFilter (g : Dom.Page -> list (gmap string string) -> list (gmap string string))
  : WebSheet.webSheetFilterCallback :=
  fun p rows => Ok (g p rows).

(** Some trimmed segment of the row's cell, split on [sep], is [v]. *)
Definition someSegmentIs (sep v column : string) (r : gmap string string) : Prop :=
  exists cell seg,
    r !! column = Some cell /\ seg ∈ JS.split sep cell /\ JS.trim seg = v.

#[global] Instance someSegmentIs_dec sep v column r :
  Decision (someSegmentIs sep v column r).
Proof.
  unfold someSegmentIs.
  destruct (r !! column) as [cell|] eqn:Hc.
  - destruct (decide (Exists (fun seg => JS.trim seg = v) (JS.split sep cell)))
      as [Hex|Hex].
    + left. apply Exists_exists in Hex as (seg & Hin & Heq). eauto.
    + right. intros (cell' & seg & Hcell & Hin & Heq).
      apply Hex, Exists_exists. simplify_eq. eauto.
  - right. intros (cell' & seg & Hcell & _). discriminate.
Defined.

(** The values a column contributes to a bound input's option list: the
    whole cell, or each trimmed segment when a delimiter is given. *)
Definition columnValue (column : string) (deliminator : option string)
  (rows : list (gmap string string)) (v : string) : Prop :=
  exists row cell,
    row ∈ rows /\ row !! column = Some cell /\
    match deliminator with
    | None => v = cell
    | Some d => exists seg, seg ∈ JS.split d cell /\ v = JS.trim seg
    end.

(** ** Concrete data used in examples *)

Module Sample.
Import Dom WebSheet.

Definition schema : list string := ["name"; "dept"].

Definition header : gmap string string := {[ "name" := "name"; "dept" := "dept" ]}.
Definition alice : gmap string string := {[ "name" := "Alice"; "dept" := "name" ]}.
Definition partial : gmap string string := {[ "name" := "name"; "dept" := "Sales" ]}.
Definition bob : gmap string string := {[ "name" := "bob"; "dept" := "Ops, Sales" ]}.
Definition nameless : gmap string string := {[ "dept" := "Ops" ]}.

Definition compile (source : string) (r : gmap string string) : string := source.

Definition byName (r : gmap string string) : string := default "" (r !! "name").

(** A page with one text input (element 0) and one select (element 1). *)
Definition page0 (text selected : string) : Page := fun e =>
  match e with
  | O => Input text
  | _ => Select [mkOption "Any" "Any"; mkOption selected selected] (Some 1%nat)
  end.

Definition opts0 : webSheetOptions :=
  {| sheet := Some "https://docs.google.com/spreadsheets/d/x/edit#gid=0";
     template := Some (TFunction byName);
     output := Some 2%nat;
     query := Some "select A,B";
     labels := Some schema;
     errorCallback := None |}.

Definition opts_no_output : webSheetOptions :=
  {| sheet := Some "https://docs.google.com/spreadsheets/d/x/edit#gid=0";
     template := Some (TFunction byName);
     output := None;
     query := Some "select A,B";
     labels := Some schema;
     errorCallback := None |}.

Definition sheet0 (rows : list (gmap string string)) : t :=
  {| WebSheet.options := opts0; filters := []; inputs := [];
     template_fn := byName; errorCallback_fn := console_error;
     sorting := None; rows := rows |}.

(** Two filters that always return, and an instance holding them. *)
Definition dropFirst (p : Page) (rows : list (gmap string string))
  : list (gmap string string) := tail rows.
Definition onlyBob (p : Page) (rows : list (gmap string string))
  : list (gmap string string) :=
  List.filter (fun r => String.eqb (byName r) "bob") rows.

Definition sheet_filtered (rows : list (gmap string string)) : t :=
  {| WebSheet.options := opts0;
     filters := map totalFilter [dropFirst; onlyBob]; inputs := [];
     template_fn := byName; errorCallback_fn := console_error;
     sorting := None; rows := rows |}.

(** A comparator on the length of the name, and a sort control (element 1)
    offering it. *)
Definition byNameLength (a b : gmap string string) : Z :=
  Z.of_nat (String.length (byName a)) - Z.of_nat (String.length (byName b)).

Definition sortOptions : list webSheetSort :=
  [ {| label := "Name length"; compare := byNameLength |};
    {| label := "Unsorted"; compare := fun _ _ => 0 |} ].

Definition sheet_sorted (rows : list (gmap string string)) : t :=
  {| WebSheet.options := opts0; filters := []; inputs := [];
     template_fn := byName; errorCallback_fn := console_error;
     sorting := Some {| sort_element := 1%nat; sort_options := sortOptions |};
     rows := rows |}.

(** A select bound to the column "col", and rows with values x, y, x. *)
Definition colInput (deliminator : option string) : webSheetInput :=
  {| element := 1%nat; column := "col"; deliminator := deliminator |}.

Definition xyx : list (gmap string string) :=
  [{[ "col" := "x" ]}; {[ "col" := "y" ]}; {[ "col" := "x" ]}].

Definition withAny : list (gmap string string) :=
  [{[ "col" := "b, Any" ]}; {[ "col" := "a" ]}].

(** The option values and the selection of element [e] after a rebuild. *)
Definition rebuilt (r : outcome Page) (e : ElemId) : option (list string * string) :=
  match r with
  | Ok p => Some (map opt_value (default [] (Dom.options (p e))), value (p e))
  | Throw _ => None
  end.

(** A page whose select (element 1) has no option yet, with a text input
    (element 0), and an instance wired to it. *)
Definition page_fresh : Page := fun e =>
  match e with
  | O => Input ""
  | _ => Select [] None
  end.

Definition world_fresh : World :=
  {| this := sheet0 [alice; bob]; page := page_fresh; surface := ∅; console := [] |}.

(** An instance with one delimited input bound on the column "name". *)
Definition world_bound : World :=
  {| this :=
       {| WebSheet.options := opts0; filters := [];
          inputs := [{| element := 1%nat; column := "name"; deliminator := Some "," |}];
          template_fn := byName; errorCallback_fn := console_error;
          sorting := None; rows := [alice] |};
     page := page_fresh; surface := {[ 2%nat := "Alice" ]}; console := [] |}.


Definition world0 : World :=
  {| this := sheet0 [alice; bob]; page := page0 "" "Any";
     surface := ∅; console := [] |}.

End Sample.

(** ** Properties *)

(** *** The built-ins on examples *)

Example split_examples :
  JS.split "," "A, B, C" = ["A"; " B"; " C"] /\
  JS.split "," "" = [""] /\
  JS.split ", " "a, b, " = ["a"; "b"; ""] /\
  JS.split "ab" "aabab" = ["a"; ""; ""] /\
  JS.split "" "abc" = ["a"; "b"; "c"] /\
  JS.split "" "" = [].
Proof. repeat split; reflexivity. Qed.

Example trim_examples :
  JS.trim "  a b  " = "a b" /\ JS.trim "   " = "" /\
  JS.trim (String "009" (String "160" "x")) = "x".
Proof. repeat split; reflexivity. Qed.

Example toLowerCase_includes_examples :
  JS.toLowerCase "AliCE Z[" = "alice z[" /\
  JS.includes "bob" "ob" = true /\ JS.includes "alice" "ob" = false /\
  JS.includes "" "" = true.
Proof. repeat split; reflexivity. Qed.

Example default_sort_example :
  JS.sort JS.defaultCompare [Some "y"; None; Some "x"; Some "Any"; Some ""] =
  [Some ""; Some "Any"; Some "x"; Some "y"; None].
Proof. reflexivity. Qed.

Section Outcome.
Context {A B : Type}.

Lemma bind_Ok (a : A) (k : A -> outcome B) : (Ok a ≫= k) = k a.
Proof. reflexivity. Qed.

Lemma bind_Throw (e : Exn) (k : A -> outcome B) : (Throw e ≫= k) = Throw e.
Proof. reflexivity. Qed.

End Outcome.

(** *** Header rows (sheetrockCallback) *)

Lemma keepRow_iff (ls : list string) (r : gmap string string) :
  WebSheet.keepRow ls r = true <-> forall l, l ∈ ls -> r !! l ≠ Some l.
Proof.
  unfold WebSheet.keepRow. rewrite forallb_forall. split.
  - intros H l Hl. apply list_elem_of_In, H in Hl.
    apply bool_decide_eq_true in Hl. congruence.
  - intros H l Hl. apply bool_decide_eq_true. apply list_elem_of_In, H in Hl.
    congruence.
Qed.

Lemma keepRow_false_iff (ls : list string) (r : gmap string string) :
  WebSheet.keepRow ls r = false <-> exists l, l ∈ ls /\ r !! l = Some l.
Proof.
  split.
  - unfold WebSheet.keepRow. induction ls as [|l ls IH]; simpl; [discriminate|].
    intros [Hl|Hrest]%andb_false_iff.
    + apply bool_decide_eq_false in Hl. exists l. split; [left|].
      destruct (decide (r !! l = Some l)); [done|]. exfalso. apply Hl. congruence.
    + destruct (IH Hrest) as (l' & Hin & Heq). exists l'. split; [by right|done].
  - intros (l & Hl & Heq). apply not_true_iff_false. intros Hk.
    exact (proj1 (keepRow_iff ls r) Hk l Hl Heq).
Qed.

(** A row is dropped as soon as one label equals the cell stored under it. *)
Lemma loadRows_drops_iff (ls : list string) (r : gmap string string) :
  WebSheet.loadRows ls [{| WebSheet.cells := r |}] = [] <->
  exists l, l ∈ ls /\ r !! l = Some l.
Proof.
  rewrite <- keepRow_false_iff. unfold WebSheet.loadRows. simpl.
  destruct (WebSheet.keepRow ls r); split; congruence.
Qed.

(** C1 (the code at the failing input): with labels ["name","dept"] the
    header row is dropped and the row {name:"Alice", dept:"name"} is kept, as
    the claim says, but the row {name:"name", dept:"Sales"}, in which only one
    label equals its cell, is dropped too. *)
Theorem partial_header_match_is_dropped :
  WebSheet.loadRows Sample.schema [{| WebSheet.cells := Sample.header |}] = [] /\
  WebSheet.loadRows Sample.schema [{| WebSheet.cells := Sample.alice |}] = [Sample.alice] /\
  WebSheet.loadRows Sample.schema [{| WebSheet.cells := Sample.partial |}] = [] /\
  Sample.partial !! "dept" ≠ Some "dept".
Proof. repeat split; vm_compute; congruence. Qed.

(** *** Construction *)

(** C4 (amended): the constructor checks sheet, template, query and labels, in
    that order, and throws the error of the first one that is missing, each
    with its own message; when the four are present it returns an instance
    with no filter and no input, whatever [output] is. *)
Theorem constructor_checks compile (o : WebSheet.webSheetOptions) :
  match WebSheet.sheet o, WebSheet.template o, WebSheet.query o, WebSheet.labels o with
  | None, _, _, _ =>
      WebSheet.new compile o = Throw (Error "WebSheet: Provide a Google Sheet URL")
  | Some _, None, _, _ =>
      WebSheet.new compile o = Throw (Error "WebSheet: Provide a Handlebars template")
  | Some _, Some _, None, _ =>
      WebSheet.new compile o = Throw (Error "WebSheet: Provide a query")
  | Some _, Some _, Some _, None =>
      WebSheet.new compile o =
        Throw (Error "WebSheet: Provide a list of labels for your selected rows")
  | Some _, Some _, Some _, Some _ =>
      exists ws, WebSheet.new compile o = Ok ws /\
        WebSheet.options ws = o /\ WebSheet.filters ws = [] /\
        WebSheet.inputs ws = [] /\ WebSheet.sorting ws = None
  end.
Proof.
  unfold WebSheet.new.
  destruct (WebSheet.sheet o), (WebSheet.template o), (WebSheet.query o),
    (WebSheet.labels o); eauto 10.
Qed.

(** C4 (counterexample): options without [output] construct an instance. *)
Lemma constructor_accepts_missing_output :
  WebSheet.output Sample.opts_no_output = None /\
  succeeded (WebSheet.new Sample.compile Sample.opts_no_output) = true.
Proof. split; reflexivity. Qed.

(** *** Registration *)

Lemma typeof_function (v : WebSheet.Value) :
  WebSheet.typeof v = "function" <-> exists f, v = WebSheet.VFunction f.
Proof.
  split.
  - destruct v; simpl; try discriminate. eauto.
  - intros [f ->]. reflexivity.
Qed.

(** C5: registering a value that is not a function throws at once and leaves
    the instance, its list of filters included, as it was. *)
Theorem createFilter_rejects_non_function (v : WebSheet.Value) (w : WebSheet.World) :
  WebSheet.typeof v ≠ "function" ->
  exists msg,
    WebSheet.createFilter v w = (Throw (Error msg), w) /\
    WebSheet.filters (WebSheet.this (snd (WebSheet.createFilter v w))) =
      WebSheet.filters (WebSheet.this w).
Proof.
  intros Hty. destruct v; simpl; eauto. by destruct Hty.
Qed.

Lemma createFilter_rejects_non_function_witness :
  exists msg,
    WebSheet.createFilter (WebSheet.VString "name") Sample.world0 =
      (Throw (Error msg), Sample.world0) /\
    WebSheet.filters (WebSheet.this
      (snd (WebSheet.createFilter (WebSheet.VString "name") Sample.world0))) =
      WebSheet.filters (WebSheet.this Sample.world0).
Proof.
  apply (createFilter_rejects_non_function (WebSheet.VString "name") Sample.world0).
  simpl. discriminate.
Defined.

Lemma createFilter_registers (f : WebSheet.webSheetFilterCallback) (w : WebSheet.World) :
  exists w',
    WebSheet.createFilter (WebSheet.VFunction f) w = (Ok tt, w') /\
    WebSheet.filters (WebSheet.this w') =
      (WebSheet.filters (WebSheet.this w) ++ [f])%list.
Proof. eexists. split; reflexivity. Qed.

(** *** The filter chain *)

Lemma runFilters_fold p (fs : list WebSheet.webSheetFilterCallback) :
  forall acc : outcome (list (gmap string string)),
    (acc ≫= WebSheet.runFilters p fs) = fold_left (fun a f => a ≫= f p) fs acc.
Proof.
  induction fs as [|f fs IH]; intros acc; simpl.
  - by destruct acc.
  - rewrite <- IH. by destruct acc.
Qed.

Lemma fold_left_total p gs :
  forall R : list (gmap string string),
    fold_left (fun a f => a ≫= f p) (map totalFilter gs) (Ok R) =
    Ok (fold_left (fun a g => g p a) gs R).
Proof. induction gs as [|g gs IH]; intros R; simpl; [done|]. apply IH. Qed.

(** C6: the rows handed to the sort step are the left fold of the registered
    filters over the loaded rows, in registration order, each filter being
    given the result of the one before (an error of a filter ends the fold);
    without a sort control this fold is the result, for filters that always
    return it is fn(...f2(f1(R))...), and with no filter it is R. *)
Theorem filteredRows_is_left_fold (o : WebSheet.t) (p : Dom.Page) :
  WebSheet.filteredRows o p =
    (fold_left (fun acc f => acc ≫= f p) (WebSheet.filters o) (Ok (WebSheet.rows o))
       ≫= WebSheet.sortStep p (WebSheet.sorting o)) /\
  (WebSheet.sorting o = None ->
   WebSheet.filteredRows o p =
     fold_left (fun acc f => acc ≫= f p) (WebSheet.filters o) (Ok (WebSheet.rows o))) /\
  (forall gs, WebSheet.sorting o = None ->
     WebSheet.filters o = map totalFilter gs ->
     WebSheet.filteredRows o p =
       Ok (fold_left (fun acc g => g p acc) gs (WebSheet.rows o))) /\
  (WebSheet.sorting o = None -> WebSheet.filters o = [] ->
   WebSheet.filteredRows o p = Ok (WebSheet.rows o)).
Proof.
  unfold WebSheet.filteredRows.
  pose proof (runFilters_fold p (WebSheet.filters o) (Ok (WebSheet.rows o))) as Hfold.
  rewrite bind_Ok in Hfold. rewrite Hfold.
  split; [done|]. split; [|split].
  - intros Hs. rewrite Hs. by destruct (fold_left _ _ _).
  - intros gs Hs Hf. rewrite Hs, Hf, fold_left_total. reflexivity.
  - intros Hs Hf. rewrite Hs, Hf. reflexivity.
Qed.

Lemma filteredRows_is_left_fold_witness :
  WebSheet.filteredRows (Sample.sheet_filtered [Sample.alice; Sample.bob; Sample.header])
    (Sample.page0 "" "Any") = Ok [Sample.bob].
Proof.
  apply (proj1 (proj2 (proj2
    (filteredRows_is_left_fold
       (Sample.sheet_filtered [Sample.alice; Sample.bob; Sample.header])
       (Sample.page0 "" "Any"))))
    [Sample.dropFirst; Sample.onlyBob]); reflexivity.
Defined.

(** *** Array.prototype.sort as modelled: permutation, order, stability *)

Section Sort.
Context {A : Type} (cmp : A -> A -> Z).

Lemma sort_insert_perm (x : A) (l : list A) :
  Permutation (x :: l) (JS.sort_insert cmp x l).
Proof.
  induction l as [|y l IH]; simpl; [done|].
  destruct (cmp x y <=? 0); [done|].
  rewrite <- IH. apply perm_swap.
Qed.

Lemma sort_perm (l : list A) : Permutation l (JS.sort cmp l).
Proof.
  induction l as [|x l IH]; simpl; [done|].
  rewrite <- sort_insert_perm. by constructor.
Qed.

Hypothesis Hcmp : consistent cmp.

Lemma consistent_total (a b : A) : cmp a b <= 0 \/ cmp b a <= 0.
Proof.
  destruct Hcmp as [Hanti _]. destruct (Z_lt_le_dec 0 (cmp a b)) as [Hgt|]; [|by left].
  right. apply Hanti in Hgt. lia.
Qed.

Lemma consistent_equal_sym (a b : A) : cmp a b = 0 -> cmp b a = 0.
Proof.
  destruct Hcmp as [Hanti _]. intros Hab.
  pose proof (Hanti a b). pose proof (Hanti b a). lia.
Qed.

Lemma sort_insert_sorted (x : A) (l : list A) :
  StronglySorted (fun a b => cmp a b <= 0) l ->
  StronglySorted (fun a b => cmp a b <= 0) (JS.sort_insert cmp x l).
Proof.
  destruct Hcmp as [Hanti Htrans].
  induction l as [|y l IH]; simpl; intros Hs.
  - constructor; [constructor|constructor].
  - apply StronglySorted_inv in Hs as [Hl Hy].
    destruct (cmp x y <=? 0) eqn:Hxy.
    + apply Z.leb_le in Hxy. constructor; [by constructor|].
      constructor; [done|].
      eapply Forall_impl; [exact Hy|]. intros z Hz. by eapply Htrans.
    + apply Z.leb_gt in Hxy. constructor; [by apply IH|].
      eapply Permutation_Forall; [apply sort_insert_perm|].
      constructor; [|done]. apply Hanti in Hxy. lia.
Qed.

Lemma sort_sorted (l : list A) :
  StronglySorted (fun a b => cmp a b <= 0) (JS.sort cmp l).
Proof.
  induction l as [|x l IH]; simpl; [constructor|]. by apply sort_insert_sorted.
Qed.

(** Inserting [x] never moves it past an element it ranks equal to. *)
Lemma sort_insert_stable (a x : A) (l : list A) :
  List.filter (fun r => cmp a r =? 0) (JS.sort_insert cmp x l) =
  List.filter (fun r => cmp a r =? 0) (x :: l).
Proof.
  destruct Hcmp as [Hanti Htrans].
  induction l as [|y l IH]; simpl; [done|].
  destruct (cmp x y <=? 0) eqn:Hxy; [done|].
  apply Z.leb_gt in Hxy. simpl. rewrite IH. simpl.
  destruct (cmp a x =? 0) eqn:Hax; [|done].
  destruct (cmp a y =? 0) eqn:Hay; [|done].
  apply Z.eqb_eq in Hax, Hay. exfalso.
  assert (cmp x a <= 0) by (rewrite (consistent_equal_sym a x Hax); lia).
  assert (cmp x y <= 0) by (eapply Htrans; [eassumption|lia]). lia.
Qed.

Lemma sort_stable (a : A) (l : list A) :
  List.filter (fun r => cmp a r =? 0) (JS.sort cmp l) =
  List.filter (fun r => cmp a r =? 0) l.
Proof.
  induction l as [|x l IH]; simpl; [done|].
  rewrite sort_insert_stable. simpl. by rewrite IH.
Qed.

End Sort.

(** *** The sort step of filteredRows *)


Lemma find_label_None (v : string) (opts : list WebSheet.webSheetSort) :
  JS.find (fun o => String.eqb (WebSheet.label o) v) opts = None <->
  forall o, o ∈ opts -> WebSheet.label o ≠ v.
Proof.
  induction opts as [|o opts IH]; simpl.
  - split; [|done]. intros _ o Ho. by apply not_elem_of_nil in Ho.
  - destruct (String.eqb (WebSheet.label o) v) eqn:Ho.
    + apply String.eqb_eq in Ho. split; [discriminate|].
      intros H. exfalso. apply (H o); [left|done].
    + apply String.eqb_neq in Ho. rewrite IH. split.
      * intros H o' [->|Hin]%elem_of_cons; auto.
      * intros H o' Hin. apply H. by right.
Qed.

(** With labels that are pairwise distinct, the lookup returns the registered
    option whose label is the control's value. *)
Lemma find_label_unique (opts : list WebSheet.webSheetSort) sortFunc :
  NoDup (map WebSheet.label opts) -> sortFunc ∈ opts ->
  JS.find (fun o => String.eqb (WebSheet.label o) (WebSheet.label sortFunc)) opts =
    Some sortFunc.
Proof.
  induction opts as [|o opts IH]; simpl; intros Hnd Hin.
  - by apply not_elem_of_nil in Hin.
  - apply NoDup_cons in Hnd as [Hfresh Hnd].
    apply elem_of_cons in Hin as [->|Hin].
    + by rewrite String.eqb_refl.
    + destruct (String.eqb (WebSheet.label o) (WebSheet.label sortFunc)) eqn:Ho;
        [|by apply IH].
      apply String.eqb_eq in Ho. exfalso. apply Hfresh. rewrite Ho.
      apply list_elem_of_fmap. eauto.
Qed.

(** C8: when the lookup of the sort control's value among the registered
    options finds a comparator, and this comparator is consistent, the result
    holds the same rows as the filtered sequence, in the comparator's order,
    and rows that the comparator ranks equal keep their relative order: for
    every row [a], the rows ranked equal to [a] form the same subsequence
    before and after. *)
Theorem filteredRows_sorts_stably (o : WebSheet.t) (p : Dom.Page)
  (s : WebSheet.Sorting) (sortFunc : WebSheet.webSheetSort)
  (filtered : list (gmap string string)) :
  WebSheet.sorting o = Some s ->
  JS.find (fun v => String.eqb (WebSheet.label v)
                      (Dom.value (p (WebSheet.sort_element s))))
    (WebSheet.sort_options s) = Some sortFunc ->
  WebSheet.runFilters p (WebSheet.filters o) (WebSheet.rows o) = Ok filtered ->
  consistent (WebSheet.compare sortFunc) ->
  exists sorted,
    WebSheet.filteredRows o p = Ok sorted /\
    Permutation filtered sorted /\
    StronglySorted (fun a b => WebSheet.compare sortFunc a b <= 0) sorted /\
    forall a,
      List.filter (fun r => WebSheet.compare sortFunc a r =? 0) sorted =
      List.filter (fun r => WebSheet.compare sortFunc a r =? 0) filtered.
Proof.
  intros Hs Hfind Hrun Hcons.
  exists (JS.sort (WebSheet.compare sortFunc) filtered).
  split; [|split; [|split]].
  - unfold WebSheet.filteredRows. rewrite Hrun, Hs. simpl. by rewrite Hfind.
  - apply sort_perm.
  - by apply sort_sorted.
  - intros a. by apply sort_stable.
Qed.

Lemma filteredRows_sorts_stably_witness :
  exists sorted,
    WebSheet.filteredRows
      (Sample.sheet_sorted [Sample.alice; Sample.header; Sample.bob; Sample.partial])
      (Sample.page0 "" "Name length") = Ok sorted /\
    Permutation [Sample.alice; Sample.header; Sample.bob; Sample.partial] sorted /\
    StronglySorted (fun a b => Sample.byNameLength a b <= 0) sorted /\
    forall a,
      List.filter (fun r => Sample.byNameLength a r =? 0) sorted =
      List.filter (fun r => Sample.byNameLength a r =? 0)
        [Sample.alice; Sample.header; Sample.bob; Sample.partial].
Proof.
  apply (filteredRows_sorts_stably
    (Sample.sheet_sorted [Sample.alice; Sample.header; Sample.bob; Sample.partial])
    (Sample.page0 "" "Name length")
    {| WebSheet.sort_element := 1%nat; WebSheet.sort_options := Sample.sortOptions |}
    {| WebSheet.label := "Name length"; WebSheet.compare := Sample.byNameLength |}).
  - reflexivity.
  - reflexivity.
  - reflexivity.
  - unfold consistent, Sample.byNameLength. simpl. split; intros; lia.
Defined.

Example sort_keeps_ties_in_order :
  WebSheet.filteredRows
    (Sample.sheet_sorted [Sample.alice; Sample.header; Sample.bob; Sample.partial])
    (Sample.page0 "" "Name length") =
  Ok [Sample.bob; Sample.header; Sample.partial; Sample.alice].
Proof. reflexivity. Qed.

(** C2 (amended): when a sort control is registered and its value is the
    label of no registered option, reading the rows throws a TypeError (the
    lookup yields undefined, whose [compare] is read); the filtered rows are
    returned as they are when no sort control is registered. *)
Theorem filteredRows_unknown_sort_label (o : WebSheet.t) (p : Dom.Page)
  (filtered : list (gmap string string)) :
  WebSheet.runFilters p (WebSheet.filters o) (WebSheet.rows o) = Ok filtered ->
  (forall s,
     WebSheet.sorting o = Some s ->
     (forall v, v ∈ WebSheet.sort_options s ->
        WebSheet.label v ≠ Dom.value (p (WebSheet.sort_element s))) ->
     exists msg, WebSheet.filteredRows o p = Throw (TypeError msg)) /\
  (WebSheet.sorting o = None -> WebSheet.filteredRows o p = Ok filtered).
Proof.
  intros Hrun. unfold WebSheet.filteredRows. rewrite Hrun. split.
  - intros s Hs Hnone. rewrite Hs. simpl.
    apply find_label_None in Hnone. rewrite Hnone. eauto.
  - intros Hs. by rewrite Hs.
Qed.

Lemma filteredRows_unknown_sort_label_witness :
  exists msg,
    WebSheet.filteredRows (Sample.sheet_sorted [Sample.alice; Sample.bob])
      (Sample.page0 "" "Nonexistent") = Throw (TypeError msg).
Proof.
  apply (proj1 (filteredRows_unknown_sort_label
    (Sample.sheet_sorted [Sample.alice; Sample.bob])
    (Sample.page0 "" "Nonexistent") [Sample.alice; Sample.bob] eq_refl)
    {| WebSheet.sort_element := 1%nat; WebSheet.sort_options := Sample.sortOptions |}
    eq_refl).
  apply find_label_None. reflexivity.
Defined.

(** C2 (counterexample): the control holds "Nonexistent", no registered
    option has this label, and the rows are not returned: a TypeError is
    thrown. *)
Lemma unknown_sort_label_throws :
  JS.find (fun v => String.eqb (WebSheet.label v) "Nonexistent") Sample.sortOptions = None /\
  Dom.value (Sample.page0 "" "Nonexistent" 1%nat) = "Nonexistent" /\
  succeeded (WebSheet.filteredRows (Sample.sheet_sorted [Sample.alice; Sample.bob])
               (Sample.page0 "" "Nonexistent")) = false /\
  WebSheet.filteredRows (Sample.sheet_sorted [Sample.alice; Sample.bob])
    (Sample.page0 "" "Nonexistent") ≠ Ok [Sample.alice; Sample.bob].
Proof. repeat split; try reflexivity. discriminate. Qed.

(** *** Array.prototype.filter and findIndex as modelled *)

Section ArrayCallbacks.
Context {A : Type}.

Lemma filter_pure (f : A -> bool) (cb : A -> outcome bool) (l : list A) :
  (forall x, x ∈ l -> cb x = Ok (f x)) ->
  JS.filter cb l = Ok (List.filter f l).
Proof.
  induction l as [|x l IH]; simpl; intros Hcb; [done|].
  rewrite (Hcb x) by left. simpl.
  rewrite IH by (intros y Hy; apply Hcb; by right). simpl.
  by destruct (f x).
Qed.

(** A callback whose only failure is [e] makes the filter fail with [e] as
    soon as it fails on one element. *)
Lemma filter_throws (e : Exn) (cb : A -> outcome bool) (l : list A) (x : A) :
  (forall y, y ∈ l -> succeeded (cb y) = false -> cb y = Throw e) ->
  x ∈ l -> cb x = Throw e ->
  JS.filter cb l = Throw e.
Proof.
  induction l as [|y l IH]; simpl; intros Hall Hin Hx.
  - by apply not_elem_of_nil in Hin.
  - destruct (cb y) as [b|e'] eqn:Hy; simpl.
    + apply elem_of_cons in Hin as [->|Hin]; [congruence|].
      rewrite IH; [done| |done..].
      intros z Hz. apply Hall. by right.
    + assert (cb y = Throw e) as He by (apply Hall; [left|by rewrite Hy]).
      congruence.
Qed.

Lemma findIndex_from_pure (f : A -> bool) (l : list A) :
  forall k, 0 <= k ->
    exists i, JS.findIndex_from (fun x => Ok (f x)) l k = Ok i /\
      (i = -1 <-> forall x, x ∈ l -> f x = false).
Proof.
  induction l as [|x l IH]; simpl; intros k Hk.
  - exists (-1). split; [done|]. split; [|done].
    intros _ x Hx. by apply not_elem_of_nil in Hx.
  - destruct (f x) eqn:Hx.
    + exists k. split; [done|]. split; [lia|].
      intros H. rewrite (H x) in Hx by left. discriminate.
    + destruct (IH (k + 1)) as (i & Hi & Hiff); [lia|].
      exists i. split; [done|]. rewrite Hiff. split.
      * intros H y [->|Hy]%elem_of_cons; auto.
      * intros H y Hy. apply H. by right.
Qed.

End ArrayCallbacks.

(** *** The column filter *)

Lemma segment_callback (sep v column : string) (r : gmap string string) cell :
  r !! column = Some cell ->
  (i ← JS.findIndex (fun seg => Ok (String.eqb (JS.trim seg) v)) (JS.split sep cell);
   Ok (negb (i =? -1))) =
  Ok (bool_decide (someSegmentIs sep v column r)).
Proof.
  intros Hcell. unfold JS.findIndex.
  destruct (findIndex_from_pure (fun seg => String.eqb (JS.trim seg) v)
              (JS.split sep cell) 0) as (i & -> & Hiff); [lia|].
  simpl. f_equal. destruct (i =? -1) eqn:Hi; simpl; symmetry.
  - apply Z.eqb_eq in Hi. pose proof (proj1 Hiff Hi) as Hno.
    apply bool_decide_eq_false.
    intros (cell' & seg & Hc & Hin & Heq). simplify_eq.
    specialize (Hno seg Hin). by rewrite String.eqb_refl in Hno.
  - apply bool_decide_eq_true. apply Z.eqb_neq in Hi.
    destruct (decide (Exists (fun seg => JS.trim seg = v) (JS.split sep cell)))
      as [Hex|Hex].
    + apply Exists_exists in Hex as (seg & Hin & Heq). exists cell, seg. eauto.
    + exfalso. apply Hi, Hiff. intros seg Hin. apply String.eqb_neq.
      intros Heq. apply Hex, Exists_exists. eauto.
Qed.

(** C7: a bound column filter returns its input when the control holds "Any";
    otherwise, without delimiter, it keeps exactly the rows whose cell in the
    column is the control's value, and with a delimiter (every row having the
    column) exactly the rows one of whose segments, trimmed, is that value. *)
Theorem columnFilter_spec (el : Dom.ElemId) (column : string)
  (separator : option string) (p : Dom.Page) (rows : list (gmap string string)) :
  (Dom.value (p el) = "Any" ->
   WebSheet.columnFilter el column separator p rows = Ok rows) /\
  (Dom.value (p el) ≠ "Any" -> separator = None ->
   WebSheet.columnFilter el column separator p rows =
     Ok (List.filter (fun r => bool_decide (r !! column = Some (Dom.value (p el)))) rows)) /\
  (forall sep, Dom.value (p el) ≠ "Any" -> separator = Some sep ->
   (forall r, r ∈ rows -> is_Some (r !! column)) ->
   WebSheet.columnFilter el column separator p rows =
     Ok (List.filter
           (fun r => bool_decide (someSegmentIs sep (Dom.value (p el)) column r)) rows)).
Proof.
  unfold WebSheet.columnFilter. split; [|split].
  - intros ->. reflexivity.
  - intros Hv ->. apply String.eqb_neq in Hv. rewrite Hv.
    by apply filter_pure.
  - intros sep Hv -> Hcol. apply String.eqb_neq in Hv. rewrite Hv.
    apply filter_pure. intros r Hr. destruct (Hcol r Hr) as [cell Hcell].
    rewrite Hcell. by apply segment_callback.
Qed.

Lemma columnFilter_spec_witness :
  WebSheet.columnFilter 1%nat "dept" (Some ",") (Sample.page0 "" "Sales")
    [Sample.alice; Sample.bob; Sample.partial] =
  Ok (List.filter
        (fun r => bool_decide (someSegmentIs "," "Sales" "dept" r))
        [Sample.alice; Sample.bob; Sample.partial]).
Proof.
  apply (proj2 (proj2 (columnFilter_spec 1%nat "dept" (Some ",")
    (Sample.page0 "" "Sales") [Sample.alice; Sample.bob; Sample.partial])) ",").
  - simpl. discriminate.
  - reflexivity.
  - intros r Hr.
    repeat (apply elem_of_cons in Hr as [->|Hr]; [vm_compute; eauto|]).
    by apply not_elem_of_nil in Hr.
Defined.

Example delimited_filter_selects_segment :
  WebSheet.columnFilter 1%nat "tags" (Some ",") (Sample.page0 "" "B")
    [{[ "tags" := "A, B, C" ]}; {[ "tags" := "AB" ]}] = Ok [{[ "tags" := "A, B, C" ]}] /\
  WebSheet.columnFilter 1%nat "tags" (Some ",") (Sample.page0 "" "Any")
    [{[ "tags" := "A, B, C" ]}; {[ "tags" := "AB" ]}] =
    Ok [{[ "tags" := "A, B, C" ]}; {[ "tags" := "AB" ]}].
Proof. split; reflexivity. Qed.

(** *** Rows that lack a column *)

Section FindIndex.
Context {A : Type} (e : Exn) (g : A -> outcome bool).

Lemma findIndex_from_failure (l : list A) :
  (forall x, x ∈ l -> succeeded (g x) = false -> g x = Throw e) ->
  forall k, succeeded (JS.findIndex_from g l k) = false ->
    JS.findIndex_from g l k = Throw e.
Proof.
  induction l as [|x l IH]; simpl; intros Hall k; [discriminate|].
  destruct (g x) as [[|]|e'] eqn:Hx; simpl.
  - discriminate.
  - apply IH. intros y Hy. apply Hall. by right.
  - intros _. assert (g x = Throw e) as He by (apply Hall; [left|by rewrite Hx]).
    congruence.
Qed.

Lemma findIndex_from_throws (pre post : list A) (x : A) :
  (forall y, y ∈ pre -> g y = Ok false) -> g x = Throw e ->
  forall k, JS.findIndex_from g (pre ++ x :: post) k = Throw e.
Proof.
  induction pre as [|y pre IH]; simpl; intros Hpre Hx k.
  - by rewrite Hx.
  - rewrite (Hpre y) by left. simpl. apply IH; [|done].
    intros z Hz. apply Hpre. by right.
Qed.

End FindIndex.

(** C3 (amended): for a row [r] of the sequence that lacks a column of a
    built-in filter, no error is raised when the control holds "Any" (column
    filter) or a blank search string (search filter), which return the rows as
    they are, nor by the column filter without delimiter, which does not keep
    [r]; otherwise the delimited column filter throws a TypeError, and so does
    the search filter when no column listed before the missing one holds the
    search string in [r]. *)
Theorem filters_on_missing_column (el : Dom.ElemId) (p : Dom.Page)
  (rows : list (gmap string string)) (r : gmap string string) (column : string) :
  r ∈ rows -> r !! column = None ->
  (* the column filter *)
  (Dom.value (p el) = "Any" ->
   forall separator, WebSheet.columnFilter el column separator p rows = Ok rows) /\
  (Dom.value (p el) ≠ "Any" ->
   exists kept, WebSheet.columnFilter el column None p rows = Ok kept /\ r ∉ kept) /\
  (Dom.value (p el) ≠ "Any" ->
   forall sep, exists msg,
     WebSheet.columnFilter el column (Some sep) p rows = Throw (TypeError msg)) /\
  (* the search filter *)
  (JS.toLowerCase (JS.trim (Dom.value (p el))) = "" ->
   forall columns, WebSheet.searchCallback el columns p rows = Ok rows) /\
  (JS.toLowerCase (JS.trim (Dom.value (p el))) ≠ "" ->
   forall pre post,
     (forall c, c ∈ pre -> exists cell, r !! c = Some cell /\
        JS.includes (JS.toLowerCase cell)
          (JS.toLowerCase (JS.trim (Dom.value (p el)))) = false) ->
     exists msg,
       WebSheet.searchCallback el (pre ++ column :: post) p rows =
         Throw (TypeError msg)).
Proof.
  intros Hr Hmiss. repeat split.
  - intros Hv separator. unfold WebSheet.columnFilter. by rewrite Hv.
  - intros Hv. unfold WebSheet.columnFilter.
    apply String.eqb_neq in Hv. rewrite Hv.
    eexists. split; [by apply filter_pure|].
    intros Hin. apply list_elem_of_In, filter_In in Hin as [_ Hb].
    apply bool_decide_eq_true in Hb. congruence.
  - intros Hv sep. unfold WebSheet.columnFilter.
    apply String.eqb_neq in Hv. rewrite Hv.
    exists "Cannot read properties of undefined (reading 'split')".
    apply filter_throws with (x := r); [|done|by rewrite Hmiss].
    intros y _. destruct (y !! column); [|done].
    unfold JS.findIndex.
    destruct (findIndex_from_pure
      (fun v => String.eqb (JS.trim v) (Dom.value (p el))) (JS.split sep s) 0)
      as (i & -> & _); [lia|]. discriminate.
  - intros Hs columns. unfold WebSheet.searchCallback. by rewrite Hs.
  - intros Hs pre post Hpre. unfold WebSheet.searchCallback.
    apply String.eqb_neq in Hs. rewrite Hs.
    exists "Cannot read properties of undefined (reading 'toLowerCase')".
    apply filter_throws with (x := r); [|done|].
    + intros y _. unfold JS.findIndex.
      match goal with
      | |- context [JS.findIndex_from ?g ?l 0] =>
          pose proof (findIndex_from_failure
            (TypeError "Cannot read properties of undefined (reading 'toLowerCase')")
            g l) as Hfail;
          destruct (JS.findIndex_from g l 0) as [i|e'] eqn:Hf
      end; [discriminate|].
      intros _. simpl.
      assert (forall c, c ∈ (pre ++ column :: post)%list ->
        succeeded (match y !! c with
                   | Some cell =>
                       Ok (JS.includes (JS.toLowerCase cell)
                             (JS.toLowerCase (JS.trim (Dom.value (p el)))))
                   | None =>
                       Throw (TypeError
                         "Cannot read properties of undefined (reading 'toLowerCase')")
                   end) = false ->
        match y !! c with
        | Some cell =>
            Ok (JS.includes (JS.toLowerCase cell)
                  (JS.toLowerCase (JS.trim (Dom.value (p el)))))
        | None =>
            Throw (TypeError
              "Cannot read properties of undefined (reading 'toLowerCase')")
        end = Throw (TypeError
                "Cannot read properties of undefined (reading 'toLowerCase')"))
        as Hall by (intros c _; by destruct (y !! c)).
      specialize (Hfail Hall 0). rewrite Hf in Hfail.
      injection (Hfail eq_refl) as ->. reflexivity.
    + unfold JS.findIndex. erewrite findIndex_from_throws; [done| |by rewrite Hmiss].
      intros c Hc. destruct (Hpre c Hc) as (cell & -> & ->). done.
Qed.

Lemma filters_on_missing_column_witness :
  exists msg,
    WebSheet.searchCallback 0%nat ([] ++ "name" :: ["dept"]) (Sample.page0 "ali" "Sales")
      [Sample.alice; Sample.nameless] = Throw (TypeError msg).
Proof.
  refine (proj2 (proj2 (proj2 (proj2
    (filters_on_missing_column 0%nat (Sample.page0 "ali" "Sales")
       [Sample.alice; Sample.nameless] Sample.nameless "name" _ _)))) _ [] ["dept"] _).
  - right. left.
  - reflexivity.
  - simpl. discriminate.
  - intros c Hc. by apply not_elem_of_nil in Hc.
Defined.

(** C3 (counterexample): a row without the "name" column makes the search
    filter and the delimited column filter throw. *)
Lemma missing_column_raises_TypeError :
  Sample.nameless !! "name" = None /\
  WebSheet.searchCallback 0%nat ["name"] (Sample.page0 "ali" "Sales")
    [Sample.alice; Sample.nameless] =
    Throw (TypeError "Cannot read properties of undefined (reading 'toLowerCase')") /\
  WebSheet.columnFilter 1%nat "name" (Some ",") (Sample.page0 "" "Sales")
    [Sample.alice; Sample.nameless] =
    Throw (TypeError "Cannot read properties of undefined (reading 'split')").
Proof. repeat split; reflexivity. Qed.

Example search_is_case_insensitive :
  WebSheet.searchCallback 0%nat ["name"] (Sample.page0 " OB " "Any")
    [Sample.alice; Sample.bob] = Ok [Sample.bob].
Proof. reflexivity. Qed.

(** *** Rebuilding the option list of a bound input *)

Section SetAdd.
Context {A : Type} `{EqDecision A}.

Lemma elem_of_Set_add (x y : A) (s : list A) :
  y ∈ JS.Set_add x s <-> y = x \/ y ∈ s.
Proof.
  unfold JS.Set_add. case_bool_decide as Hx.
  - split; [by right|]. intros [->|]; done.
  - rewrite elem_of_app, list_elem_of_singleton. tauto.
Qed.

Lemma NoDup_Set_add (x : A) (s : list A) : NoDup s -> NoDup (JS.Set_add x s).
Proof.
  unfold JS.Set_add. case_bool_decide as Hx; [done|]. intros Hs.
  apply NoDup_app. split; [done|]. split; [|apply NoDup_singleton].
  intros y Hy ->%list_elem_of_singleton. done.
Qed.

Lemma Set_add_fold {B} (f : B -> A) (l : list B) :
  forall s, NoDup s ->
    NoDup (fold_left (fun acc b => JS.Set_add (f b) acc) l s) /\
    forall y, y ∈ fold_left (fun acc b => JS.Set_add (f b) acc) l s <->
              y ∈ s \/ exists b, b ∈ l /\ y = f b.
Proof.
  induction l as [|b l IH]; simpl; intros s Hs.
  - split; [done|]. intros y. split; [by left|].
    intros [|(b & Hb & _)]; [done|]. by apply not_elem_of_nil in Hb.
  - destruct (IH (JS.Set_add (f b) s) (NoDup_Set_add _ _ Hs)) as [Hnd Hin].
    split; [done|]. intros y. rewrite Hin, elem_of_Set_add. split.
    + intros [[->|]|(b' & Hb' & ->)]; [right|by left|right].
      * exists b. split; [left|done].
      * exists b'. split; [by right|done].
    + intros [|(b' & [->|Hb']%elem_of_cons & ->)]; [left; by right|left; by left|].
      right. eauto.
Qed.

End SetAdd.

Lemma collectOptions_ok (column : string) (deliminator : option string)
  (rows : list (gmap string string)) :
  (forall r, r ∈ rows -> is_Some (r !! column)) ->
  forall init, NoDup init ->
    exists opts,
      WebSheet.collectOptions column deliminator rows init = Ok opts /\
      NoDup opts /\
      forall y, y ∈ opts <->
        y ∈ init \/ exists v, y = Some v /\ columnValue column deliminator rows v.
Proof.
  induction rows as [|row rows IH]; intros Hcol init Hinit; simpl.
  - exists init. split; [done|]. split; [done|]. intros y. split; [by left|].
    intros [|(v & _ & row & cell & Hrow & _)]; [done|].
    by apply not_elem_of_nil in Hrow.
  - destruct (Hcol row) as [cell Hcell]; [left|].
    assert (Hcol' : forall r, r ∈ rows -> is_Some (r !! column))
      by (intros r Hr; apply Hcol; by right).
    destruct deliminator as [d|].
    + rewrite Hcell.
      destruct (Set_add_fold (fun value => Some (JS.trim value)) (JS.split d cell)
                  init Hinit) as [Hnd Hmem].
      destruct (IH Hcol' _ Hnd) as (opts & Hrun & Hnd' & Hopts).
      exists opts. split; [done|]. split; [done|].
      intros y. rewrite Hopts, Hmem. unfold columnValue. split.
      * intros [[|(seg & Hseg & ->)]|(v & -> & r & c & Hr & Hc & Hv)].
        -- by left.
        -- right. eexists. split; [done|]. exists row, cell.
           split; [left|]. eauto.
        -- right. eexists. split; [done|]. exists r, c. split; [by right|]. eauto.
      * intros [|(v & -> & r & c & [->|Hr]%elem_of_cons & Hc & seg & Hseg & ->)].
        -- left. by left.
        -- left. right. simplify_eq. eauto.
        -- right. eexists. split; [done|]. exists r, c. eauto.
    + destruct (IH Hcol' _ (NoDup_Set_add (row !! column) init Hinit))
        as (opts & Hrun & Hnd' & Hopts).
      exists opts. split; [done|]. split; [done|].
      intros y. rewrite Hopts, elem_of_Set_add, Hcell. unfold columnValue. split.
      * intros [[->|]|(v & -> & r & c & Hr & Hc & ->)].
        -- right. eexists. split; [done|]. exists row, cell. split; [left|]. eauto.
        -- by left.
        -- right. eexists. split; [done|]. exists r, c. split; [by right|]. eauto.
      * intros [|(v & -> & r & c & [->|Hr]%elem_of_cons & Hc & ->)].
        -- left. by right.
        -- left. left. congruence.
        -- right. eexists. split; [done|]. exists r, c. eauto.
Qed.

Lemma string_compare_refl (s : string) : String.compare s s = Eq.
Proof.
  destruct (String.compare s s) eqn:Hc; [done|..];
    pose proof (String.compare_antisym s s) as Ha; rewrite Hc in Ha; discriminate.
Qed.

Lemma string_compare_not_Gt_trans (a b c : string) :
  String.compare a b ≠ Gt -> String.compare b c ≠ Gt -> String.compare a c ≠ Gt.
Proof.
  intros Hab Hbc.
  assert (String.le a c) as Hac.
  { transitivity b; unfold String.le, String.leb.
    - by destruct (String.compare a b).
    - by destruct (String.compare b c). }
  unfold String.le, String.leb in Hac. by destruct (String.compare a c).
Qed.

Lemma defaultCompare_consistent : consistent JS.defaultCompare.
Proof.
  split.
  - intros [a|] [b|]; simpl; try lia.
    rewrite (String.compare_antisym b a).
    destruct (String.compare a b); simpl; lia.
  - intros [a|] [b|] [c|]; simpl; try lia.
    pose proof (string_compare_not_Gt_trans a b c) as Ht.
    destruct (String.compare a b), (String.compare b c), (String.compare a c);
      try lia; intros _ _; exfalso; by apply Ht.
Qed.

(** Distinct strings in the default order are in strictly increasing order. *)
Lemma sorted_strings_strict (l : list (option string)) :
  StronglySorted (fun a b => JS.defaultCompare a b <= 0) l ->
  NoDup l -> (forall y, y ∈ l -> is_Some y) ->
  StronglySorted (fun a b => String.compare a b = Lt) (map WebSheet.toDOMString l).
Proof.
  induction 1 as [|x l Hl IH Hx]; simpl; intros Hnd Hsome; [constructor|].
  apply NoDup_cons in Hnd as [Hfresh Hnd].
  constructor.
  - apply IH; [done|]. intros y Hy. apply Hsome. by right.
  - apply Forall_forall. intros s Hs.
    apply list_elem_of_fmap in Hs as (y & -> & Hy).
    rewrite Forall_forall in Hx. specialize (Hx y Hy).
    destruct (Hsome x) as [a ->]; [left|].
    destruct (Hsome y) as [b ->]; [by right|]. simpl in *.
    destruct (String.compare a b) eqn:Hc; [|done|lia].
    apply String.compare_eq_iff in Hc as ->. done.
Qed.

Lemma strict_sorted_NoDup (l : list string) :
  StronglySorted (fun a b => String.compare a b = Lt) l -> NoDup l.
Proof.
  induction 1 as [|x l Hl IH Hx]; [constructor|].
  apply NoDup_cons. split; [|done]. intros Hin.
  rewrite Forall_forall in Hx. specialize (Hx x Hin).
  by rewrite string_compare_refl in Hx.
Qed.

Lemma appendChild_fold (l : list (option string)) :
  forall os i,
    fold_left (fun el o => Dom.appendChild (WebSheet.createOption o) el) l
      (Dom.Select os (Some i)) =
    Dom.Select (os ++ map WebSheet.createOption l) (Some i).
Proof.
  induction l as [|o l IH]; simpl; intros os i.
  - by rewrite app_nil_r.
  - rewrite IH. by rewrite <- app_assoc.
Qed.

Lemma find_option_None (v : string) (os : list Dom.OptionElement) :
  JS.find (fun o => String.eqb (Dom.opt_value o) v) os = None <->
  v ∉ map Dom.opt_value os.
Proof.
  induction os as [|o os IH]; simpl.
  - split; [|done]. intros _. apply not_elem_of_nil.
  - rewrite not_elem_of_cons.
    destruct (String.eqb (Dom.opt_value o) v) eqn:Ho.
    + apply String.eqb_eq in Ho. split; [discriminate|]. intros [Hne _]. done.
    + apply String.eqb_neq in Ho. rewrite IH. split; [|tauto].
      intros Hnot. split; [congruence|done].
Qed.

Lemma indexOfValue_Some (v : string) (os : list Dom.OptionElement) :
  v ∈ map Dom.opt_value os ->
  exists i o, Dom.indexOfValue v os = Some i /\ os !! i = Some o /\ Dom.opt_value o = v.
Proof.
  induction os as [|o os IH]; simpl; intros Hin.
  - by apply not_elem_of_nil in Hin.
  - destruct (String.eqb (Dom.opt_value o) v) eqn:Ho.
    + apply String.eqb_eq in Ho. exists O, o. done.
    + apply String.eqb_neq in Ho.
      apply elem_of_cons in Hin as [Heq|Hin]; [congruence|].
      destruct (IH Hin) as (i & o' & -> & Hi & Hv). exists (S i), o'. done.
Qed.

(** Assigning a value that some option has makes it the control's value. *)
Lemma value_set_value (v : string) (os : list Dom.OptionElement) sel :
  v ∈ map Dom.opt_value os ->
  Dom.value (Dom.set_value v (Dom.Select os sel)) = v.
Proof.
  intros Hin. simpl.
  destruct (indexOfValue_Some v os Hin) as (i & o & -> & -> & Hv). done.
Qed.

Lemma option_values (l : list (option string)) :
  map Dom.opt_value (map WebSheet.createOption l) = map WebSheet.toDOMString l.
Proof. induction l as [|o l IH]; simpl; [done|]. by rewrite IH. Qed.

Lemma update_eq (e : Dom.ElemId) (x : Dom.Element) (p : Dom.Page) :
  Dom.update e x p e = x.
Proof. unfold Dom.update. by rewrite bool_decide_eq_true_2. Qed.

Lemma update_ne (e e' : Dom.ElemId) (x : Dom.Element) (p : Dom.Page) :
  e' ≠ e -> Dom.update e x p e' = p e'.
Proof. intros Hne. unfold Dom.update. by rewrite bool_decide_eq_false_2. Qed.

(** One rebuild, for rows that all have the bound column. *)
Lemma populateInput_rebuild (rows : list (gmap string string))
  (input : WebSheet.webSheetInput) (p : Dom.Page)
  (old : list Dom.OptionElement) (sel : option nat) :
  p (WebSheet.element input) = Dom.Select old sel ->
  (forall r, r ∈ rows -> is_Some (r !! WebSheet.column input)) ->
  exists tail p',
    WebSheet.populateInput rows input p = Ok p' /\
    (forall e, e ≠ WebSheet.element input -> p' e = p e) /\
    map Dom.opt_value (default [] (Dom.options (p' (WebSheet.element input)))) =
      "Any" :: tail /\
    StronglySorted (fun a b => String.compare a b = Lt) tail /\
    (forall v, v ∈ tail <->
       columnValue (WebSheet.column input) (WebSheet.deliminator input) rows v) /\
    Dom.value (p' (WebSheet.element input)) =
      let selectionBackup :=
        if (length old =? 0)%nat then "Any" else Dom.value (Dom.Select old sel) in
      if bool_decide (selectionBackup ∈ "Any" :: tail) then selectionBackup else "Any".
Proof.
  intros Hel Hcol.
  destruct (collectOptions_ok (WebSheet.column input) (WebSheet.deliminator input)
              rows Hcol [] (NoDup_nil_2)) as (opts & Hrun & Hnd & Hopts).
  set (sorted := JS.sort JS.defaultCompare opts).
  assert (Hperm : Permutation opts sorted) by apply sort_perm.
  assert (Hsome : forall y, y ∈ sorted -> is_Some y).
  { intros y Hy. rewrite <- Hperm in Hy. apply Hopts in Hy as [Hy|(v & -> & _)].
    - by apply not_elem_of_nil in Hy.
    - eauto. }
  assert (Hstrict : StronglySorted (fun a b => String.compare a b = Lt)
                      (map WebSheet.toDOMString sorted)).
  { apply sorted_strings_strict; [|by rewrite <- Hperm|done].
    apply sort_sorted, defaultCompare_consistent. }
  assert (Hmem : forall v, v ∈ map WebSheet.toDOMString sorted <->
            columnValue (WebSheet.column input) (WebSheet.deliminator input) rows v).
  { intros v. rewrite list_elem_of_fmap. split.
    - intros (y & -> & Hy). rewrite <- Hperm in Hy.
      apply Hopts in Hy as [Hy|(v & -> & Hv)]; [|done].
      by apply not_elem_of_nil in Hy.
    - intros Hv. exists (Some v). split; [done|].
      rewrite <- Hperm. apply Hopts. right. eauto. }
  set (backup := if (length old =? 0)%nat then "Any" else Dom.value (Dom.Select old sel)).
  set (rebuilt := Dom.Select
         (map WebSheet.createOption (Some "Any" :: sorted)) (Some O)).
  assert (Hvalues : map Dom.opt_value (map WebSheet.createOption (Some "Any" :: sorted)) =
            "Any" :: map WebSheet.toDOMString sorted) by apply option_values.
  assert (Hrun' : WebSheet.populateInput rows input p =
    match JS.find (fun o => String.eqb (Dom.opt_value o) backup)
            (map WebSheet.createOption (Some "Any" :: sorted)) with
    | None => Ok (Dom.update (WebSheet.element input) (Dom.set_value "Any" rebuilt) p)
    | Some _ => Ok (Dom.update (WebSheet.element input) (Dom.set_value backup rebuilt) p)
    end).
  { unfold WebSheet.populateInput. rewrite Hel. simpl Dom.options. cbv iota beta.
    rewrite Hrun. simpl. fold sorted. by rewrite appendChild_fold. }
  exists (map WebSheet.toDOMString sorted).
  destruct (JS.find _ (map WebSheet.createOption (Some "Any" :: sorted))) as [o|] eqn:Hfind.
  - assert (Hin : backup ∈ "Any" :: map WebSheet.toDOMString sorted).
    { rewrite <- Hvalues. destruct (decide (backup ∈
        map Dom.opt_value (map WebSheet.createOption (Some "Any" :: sorted))))
        as [|Hnot]; [done|].
      apply find_option_None in Hnot. congruence. }
    eexists. split; [exact Hrun'|]. split; [intros e He; by apply update_ne|].
    rewrite update_eq. split; [exact Hvalues|]. split; [done|]. split; [done|].
    cbv zeta. fold backup. rewrite bool_decide_eq_true_2 by done.
    apply value_set_value. by rewrite Hvalues.
  - apply find_option_None in Hfind. rewrite Hvalues in Hfind.
    eexists. split; [exact Hrun'|]. split; [intros e He; by apply update_ne|].
    rewrite update_eq. split; [exact Hvalues|]. split; [done|]. split; [done|].
    cbv zeta. fold backup. rewrite bool_decide_eq_false_2 by done.
    apply value_set_value. rewrite Hvalues. left.
Qed.

(** C9: rebuilding the options of a bound select, over rows that all have its
    column, leaves the other controls alone and gives the select the values
    "Any" followed by the distinct values of the column (whole cells, or the
    trimmed segments when a delimiter is set) in strictly increasing code-unit
    order; the selection read before the rebuild ("Any" when the select had no
    option) is selected again when it is among the new values, and "Any" is
    selected otherwise. *)
Theorem populateInput_options (rows : list (gmap string string))
  (input : WebSheet.webSheetInput) (p : Dom.Page)
  (old : list Dom.OptionElement) (sel : option nat) :
  p (WebSheet.element input) = Dom.Select old sel ->
  (forall r, r ∈ rows -> is_Some (r !! WebSheet.column input)) ->
  exists tail p',
    WebSheet.populateInput rows input p = Ok p' /\
    (forall e, e ≠ WebSheet.element input -> p' e = p e) /\
    map Dom.opt_value (default [] (Dom.options (p' (WebSheet.element input)))) =
      "Any" :: tail /\
    StronglySorted (fun a b => String.compare a b = Lt) tail /\
    (forall v, v ∈ tail <->
       columnValue (WebSheet.column input) (WebSheet.deliminator input) rows v) /\
    Dom.value (p' (WebSheet.element input)) =
      let selectionBackup :=
        if (length old =? 0)%nat then "Any" else Dom.value (Dom.Select old sel) in
      if bool_decide (selectionBackup ∈ "Any" :: tail) then selectionBackup else "Any".
Proof. apply populateInput_rebuild. Qed.

Lemma populateInput_options_witness :
  exists tail p',
    WebSheet.populateInput Sample.xyx (Sample.colInput None) (Sample.page0 "" "y") = Ok p' /\
    (forall e, e ≠ 1%nat -> p' e = Sample.page0 "" "y" e) /\
    map Dom.opt_value (default [] (Dom.options (p' 1%nat))) = "Any" :: tail /\
    StronglySorted (fun a b => String.compare a b = Lt) tail /\
    (forall v, v ∈ tail <-> columnValue "col" None Sample.xyx v) /\
    Dom.value (p' 1%nat) =
      if bool_decide ("y" ∈ "Any" :: tail) then "y" else "Any".
Proof.
  apply (populateInput_options Sample.xyx (Sample.colInput None) (Sample.page0 "" "y")
           [Dom.mkOption "Any" "Any"; Dom.mkOption "y" "y"] (Some 1%nat)).
  - reflexivity.
  - intros r Hr.
    repeat (apply elem_of_cons in Hr as [->|Hr]; [vm_compute; eauto|]).
    by apply not_elem_of_nil in Hr.
Defined.

Example options_of_x_y_x :
  Sample.rebuilt
    (WebSheet.populateInput Sample.xyx (Sample.colInput None) (Sample.page0 "" "y")) 1%nat =
    Some (["Any"; "x"; "y"], "y") /\
  Sample.rebuilt
    (WebSheet.populateInput Sample.xyx (Sample.colInput None) (Sample.page0 "" "z")) 1%nat =
    Some (["Any"; "x"; "y"], "Any") /\
  Sample.rebuilt
    (WebSheet.populateInput Sample.xyx (Sample.colInput None)
       (fun _ => Dom.Select [] None)) 1%nat =
    Some (["Any"; "x"; "y"], "Any").
Proof. repeat split; reflexivity. Qed.

Lemma count_NoDup (x : string) (l : list string) :
  NoDup l -> x ∈ l -> length (List.filter (String.eqb x) l) = 1%nat.
Proof.
  induction l as [|y l IH]; simpl; intros Hnd Hin.
  - by apply not_elem_of_nil in Hin.
  - apply NoDup_cons in Hnd as [Hfresh Hnd].
    destruct (String.eqb x y) eqn:Hxy.
    + apply String.eqb_eq in Hxy as <-. simpl. f_equal.
      clear IH Hin Hnd. induction l as [|z l IH]; simpl; [done|].
      apply not_elem_of_cons in Hfresh as [Hne Hfresh].
      apply String.eqb_neq in Hne. rewrite Hne. by apply IH.
    + apply String.eqb_neq in Hxy.
      apply elem_of_cons in Hin as [|Hin]; [done|]. by apply IH.
Qed.

(** C10: when "Any" is itself a value of the bound column (a whole cell, or a
    trimmed segment), the rebuilt option list holds the value "Any" twice: the
    sentinel put in front is not merged with the value from the data. *)
Theorem populateInput_duplicates_Any (rows : list (gmap string string))
  (input : WebSheet.webSheetInput) (p : Dom.Page)
  (old : list Dom.OptionElement) (sel : option nat) :
  p (WebSheet.element input) = Dom.Select old sel ->
  (forall r, r ∈ rows -> is_Some (r !! WebSheet.column input)) ->
  columnValue (WebSheet.column input) (WebSheet.deliminator input) rows "Any" ->
  exists p' values,
    WebSheet.populateInput rows input p = Ok p' /\
    map Dom.opt_value (default [] (Dom.options (p' (WebSheet.element input)))) = values /\
    length (List.filter (String.eqb "Any") values) = 2%nat /\
    ~ NoDup values.
Proof.
  intros Hel Hcol HAny.
  destruct (populateInput_rebuild rows input p old sel Hel Hcol)
    as (tail & p' & Hrun & _ & Hvalues & Hsorted & Hmem & _).
  apply Hmem in HAny.
  exists p', ("Any" :: tail). split; [done|]. split; [done|]. split.
  - change (length ("Any" :: List.filter (String.eqb "Any") tail) = 2%nat).
    cbn [length]. f_equal. apply count_NoDup; [|done]. by apply strict_sorted_NoDup.
  - intros [Hfresh _]%NoDup_cons. done.
Qed.

Lemma populateInput_duplicates_Any_witness :
  exists p' values,
    WebSheet.populateInput Sample.withAny (Sample.colInput (Some ","))
      (Sample.page0 "" "a") = Ok p' /\
    map Dom.opt_value (default [] (Dom.options (p' 1%nat))) = values /\
    length (List.filter (String.eqb "Any") values) = 2%nat /\
    ~ NoDup values.
Proof.
  apply (populateInput_duplicates_Any Sample.withAny (Sample.colInput (Some ","))
           (Sample.page0 "" "a")
           [Dom.mkOption "Any" "Any"; Dom.mkOption "a" "a"] (Some 1%nat)).
  - reflexivity.
  - intros r Hr.
    repeat (apply elem_of_cons in Hr as [->|Hr]; [vm_compute; eauto|]).
    by apply not_elem_of_nil in Hr.
  - exists {[ "col" := "b, Any" ]}, "b, Any". split; [left|]. split; [reflexivity|].
    exists " Any". split; [|reflexivity]. right. left.
Defined.

Example options_with_Any_in_the_data :
  Sample.rebuilt
    (WebSheet.populateInput Sample.withAny (Sample.colInput (Some ","))
       (Sample.page0 "" "a")) 1%nat =
    Some (["Any"; "Any"; "a"; "b"], "a").
Proof. reflexivity. Qed.

(** ** Further properties of the class *)

(** *** Loading rows *)

Lemma List_filter_sublist {A} (f : A -> bool) (l : list A) :
  List.filter f l `sublist_of` l.
Proof.
  induction l as [|x l IH]; simpl; [constructor|].
  destruct (f x); by constructor.
Qed.

(** X1: the loaded rows are the cells of the response, in their order, from
    which exactly the rows having some label equal to the cell stored under
    it are removed; with no label at all, nothing is removed. *)
Theorem loadRows_kept (ls : list string) (response_rows : list WebSheet.RawRow) :
  WebSheet.loadRows ls response_rows `sublist_of` map WebSheet.cells response_rows /\
  (forall r, r ∈ WebSheet.loadRows ls response_rows <->
     r ∈ map WebSheet.cells response_rows /\ ~ exists l, l ∈ ls /\ r !! l = Some l) /\
  WebSheet.loadRows [] response_rows = map WebSheet.cells response_rows.
Proof.
  unfold WebSheet.loadRows. split; [apply List_filter_sublist|]. split.
  - intros r. rewrite !list_elem_of_In, filter_In.
    rewrite <- keepRow_false_iff, not_false_iff_true. done.
  - induction (map WebSheet.cells response_rows) as [|r l IH]; simpl; [done|].
    by rewrite IH.
Qed.

(** *** Registration order *)

Lemma runFilters_app p (fs gs : list WebSheet.webSheetFilterCallback)
  (R : list (gmap string string)) :
  WebSheet.runFilters p (fs ++ gs) R =
  (WebSheet.runFilters p fs R ≫= WebSheet.runFilters p gs).
Proof.
  revert R. induction fs as [|f fs IH]; intros R; simpl; [done|].
  destruct (f p R) as [R'|e]; simpl; [apply IH|done].
Qed.

(** X2: a filter registered with createFilter runs last: afterwards the rows
    handed to the sort step are the result of the filters registered before,
    passed through the new filter; the rows, the sort control and the page are
    left as they were. *)
Theorem createFilter_appends (f : WebSheet.webSheetFilterCallback)
  (w : WebSheet.World) (p : Dom.Page) :
  exists w',
    WebSheet.createFilter (WebSheet.VFunction f) w = (Ok tt, w') /\
    WebSheet.page w' = WebSheet.page w /\
    WebSheet.rows (WebSheet.this w') = WebSheet.rows (WebSheet.this w) /\
    WebSheet.filteredRows (WebSheet.this w') p =
      ((WebSheet.runFilters p (WebSheet.filters (WebSheet.this w))
          (WebSheet.rows (WebSheet.this w)) ≫= f p)
         ≫= WebSheet.sortStep p (WebSheet.sorting (WebSheet.this w))).
Proof.
  eexists. split; [reflexivity|]. split; [done|]. split; [done|].
  unfold WebSheet.filteredRows. simpl. rewrite runFilters_app. simpl.
  destruct (WebSheet.runFilters p _ _) as [R|e]; simpl; [|done].
  by destruct (f p R).
Qed.

(** *** The built-in filters only remove rows *)

Lemma JS_filter_sublist {A} (cb : A -> outcome bool) (l out : list A) :
  JS.filter cb l = Ok out -> out `sublist_of` l.
Proof.
  revert out. induction l as [|x l IH]; simpl; intros out.
  - intros [= <-]. constructor.
  - destruct (cb x) as [b|e]; simpl; [|discriminate].
    destruct (JS.filter cb l) as [rest|e]; simpl; [|discriminate].
    intros [= <-]. destruct b; constructor; by apply IH.
Qed.

(** X3: whenever a column filter or a search filter returns, what it returns
    is a subsequence of the rows it was given: rows are neither added,
    repeated nor reordered. *)
Theorem builtin_filters_return_subsequence (el : Dom.ElemId) (p : Dom.Page)
  (rows kept : list (gmap string string)) :
  (forall column separator,
     WebSheet.columnFilter el column separator p rows = Ok kept ->
     kept `sublist_of` rows) /\
  (forall columns,
     WebSheet.searchCallback el columns p rows = Ok kept ->
     kept `sublist_of` rows).
Proof.
  split.
  - intros column separator. unfold WebSheet.columnFilter.
    destruct (String.eqb _ "Any"); [by intros [= <-]|].
    destruct separator; apply JS_filter_sublist.
  - intros columns. unfold WebSheet.searchCallback.
    destruct (String.eqb _ EmptyString); [by intros [= <-]|].
    apply JS_filter_sublist.
Qed.

Lemma builtin_filters_return_subsequence_witness :
  [Sample.bob] `sublist_of` [Sample.alice; Sample.bob].
Proof.
  apply (proj2 (builtin_filters_return_subsequence 0%nat (Sample.page0 "OB" "Any")
    [Sample.alice; Sample.bob] [Sample.bob]) ["name"]).
  reflexivity.
Defined.

(** *** Column filters without delimiter *)

Lemma List_filter_comm {A} (f g : A -> bool) (l : list A) :
  List.filter f (List.filter g l) = List.filter g (List.filter f l).
Proof.
  induction l as [|x l IH]; simpl; [done|].
  destruct (f x) eqn:Hf, (g x) eqn:Hg; simpl; rewrite ?Hf, ?Hg, IH; done.
Qed.

Lemma columnFilter_exact (el : Dom.ElemId) (column : string) (p : Dom.Page)
  (rows : list (gmap string string)) :
  WebSheet.columnFilter el column None p rows =
  Ok (if String.eqb (Dom.value (p el)) "Any" then rows
      else List.filter
             (fun r => bool_decide (r !! column = Some (Dom.value (p el)))) rows).
Proof.
  unfold WebSheet.columnFilter. destruct (String.eqb _ "Any"); [done|].
  by apply filter_pure.
Qed.

(** X4: column filters without delimiter never throw, whatever the rows hold,
    and two of them give the same rows in either order of application. *)
Theorem exact_column_filters_commute (e1 e2 : Dom.ElemId) (c1 c2 : string)
  (p : Dom.Page) (rows : list (gmap string string)) :
  succeeded (WebSheet.columnFilter e1 c1 None p rows) = true /\
  (WebSheet.columnFilter e1 c1 None p rows ≫= WebSheet.columnFilter e2 c2 None p) =
  (WebSheet.columnFilter e2 c2 None p rows ≫= WebSheet.columnFilter e1 c1 None p).
Proof.
  rewrite !columnFilter_exact. split; [done|]. simpl.
  rewrite !columnFilter_exact. f_equal.
  destruct (String.eqb (Dom.value (p e1)) "Any"),
    (String.eqb (Dom.value (p e2)) "Any"); try done.
  apply List_filter_comm.
Qed.

(** *** The search filter *)

Lemma findIndex_pure_existsb {A} (f : A -> bool) (l : list A) :
  (i ← JS.findIndex (fun x => Ok (f x)) l; Ok (negb (i =? -1))) = Ok (existsb f l).
Proof.
  unfold JS.findIndex.
  destruct (findIndex_from_pure f l 0) as (i & -> & Hiff); [lia|]. simpl. f_equal.
  destruct (i =? -1) eqn:Hi; simpl; symmetry.
  - apply Z.eqb_eq in Hi. pose proof (proj1 Hiff Hi) as Hno.
    apply not_true_iff_false. intros (x & Hx & Hfx)%existsb_exists.
    rewrite (Hno x) in Hfx; [discriminate|]. by apply list_elem_of_In.
  - apply Z.eqb_neq in Hi. destruct (existsb f l) eqn:Hex; [done|].
    exfalso. apply Hi, Hiff. intros x Hx.
    apply not_true_iff_false. intros Hfx.
    assert (existsb f l = true) as Hex'
      by (apply existsb_exists; exists x; split; [by apply list_elem_of_In|done]).
    congruence.
Qed.

(** X5: over rows that have every searched column, a search filter whose
    trimmed, lower-cased text is not empty keeps exactly the rows in which one
    of the columns, lower-cased, contains that text. *)
Theorem searchCallback_spec (el : Dom.ElemId) (columns : list string)
  (p : Dom.Page) (rows : list (gmap string string)) :
  JS.toLowerCase (JS.trim (Dom.value (p el))) ≠ "" ->
  (forall r c, r ∈ rows -> c ∈ columns -> is_Some (r !! c)) ->
  WebSheet.searchCallback el columns p rows =
    Ok (List.filter
          (fun r => existsb
             (fun c => JS.includes (JS.toLowerCase (default "" (r !! c)))
                         (JS.toLowerCase (JS.trim (Dom.value (p el)))))
             columns)
          rows).
Proof.
  intros Hs Hcols. unfold WebSheet.searchCallback.
  apply String.eqb_neq in Hs. rewrite Hs.
  apply filter_pure. intros r Hr.
  rewrite <- findIndex_pure_existsb. f_equal.
  unfold JS.findIndex. generalize 0.
  specialize (Hcols r). revert Hcols.
  induction columns as [|c columns IH]; intros Hcols k; simpl; [done|].
  destruct (Hcols c Hr) as [cell ->]; [left|]. simpl.
  destruct (JS.includes _ _); [done|]. apply IH.
  intros c' Hr' Hc'. apply Hcols; [done|by right].
Qed.

Lemma searchCallback_spec_witness :
  WebSheet.searchCallback 0%nat ["name"; "dept"] (Sample.page0 " SALES" "Any")
    [Sample.alice; Sample.bob; Sample.partial] =
  Ok (List.filter
        (fun r => existsb
           (fun c => JS.includes (JS.toLowerCase (default "" (r !! c)))
                       (JS.toLowerCase (JS.trim
                          (Dom.value (Sample.page0 " SALES" "Any" 0%nat)))))
           ["name"; "dept"])
        [Sample.alice; Sample.bob; Sample.partial]).
Proof.
  apply (searchCallback_spec 0%nat ["name"; "dept"] (Sample.page0 " SALES" "Any")
           [Sample.alice; Sample.bob; Sample.partial]).
  - simpl. discriminate.
  - intros r c Hr Hc.
    repeat (apply elem_of_cons in Hr as [->|Hr];
            [repeat (apply elem_of_cons in Hc as [->|Hc]; [vm_compute; eauto|]);
             by apply not_elem_of_nil in Hc|]).
    by apply not_elem_of_nil in Hr.
Defined.

Lemma trimStart_blank (s : string) :
  Forall (fun c => JS.isWhiteSpace c = true) (String.list_ascii_of_string s) ->
  JS.trimStart s = "".
Proof.
  induction s as [|c s IH]; simpl; [done|].
  intros [Hc Hs]%Forall_cons. rewrite Hc. by apply IH.
Qed.

(** X6: a search box holding only white space (or nothing) filters nothing:
    the rows are returned as they are, even rows that lack a searched
    column. *)
Theorem blank_search_keeps_all (el : Dom.ElemId) (columns : list string)
  (p : Dom.Page) (rows : list (gmap string string)) :
  Forall (fun c => JS.isWhiteSpace c = true)
    (String.list_ascii_of_string (Dom.value (p el))) ->
  WebSheet.searchCallback el columns p rows = Ok rows.
Proof.
  intros Hblank. unfold WebSheet.searchCallback, JS.trim.
  by rewrite (trimStart_blank _ Hblank).
Qed.

Lemma blank_search_keeps_all_witness :
  WebSheet.searchCallback 0%nat ["name"] (Sample.page0 "   " "Any")
    [Sample.alice; Sample.nameless] = Ok [Sample.alice; Sample.nameless].
Proof.
  apply (blank_search_keeps_all 0%nat ["name"] (Sample.page0 "   " "Any")).
  simpl. repeat constructor.
Defined.

(** *** Sorting rows that are already in order *)




(** *** Registering the sort control *)

Lemma appendChild_fold_gen {B} (mk : B -> Dom.OptionElement) (l : list B) :
  forall os sel,
    fold_left (fun el b => Dom.appendChild (mk b) el) l (Dom.Select os sel) =
    Dom.Select (os ++ map mk l)
      (match sel, l with
       | Some i, _ => Some i
       | None, [] => None
       | None, _ :: _ => Some O
       end).
Proof.
  induction l as [|b l IH]; simpl; intros os sel.
  - rewrite app_nil_r. by destruct sel.
  - rewrite IH, <- app_assoc. simpl. by destruct sel.
Qed.

Lemma setSortSelect_result (el : Dom.ElemId) (sorts : list WebSheet.webSheetSort)
  (w : WebSheet.World) (old : list Dom.OptionElement) (sel : option nat) :
  WebSheet.page w el = Dom.Select old sel ->
  exists w',
    WebSheet.setSortSelect el sorts w = (Ok tt, w') /\
    WebSheet.page w' el =
      Dom.Select
        (old ++ map (fun s => Dom.mkOption (WebSheet.label s) (WebSheet.label s)) sorts)
        (match sel, sorts with
         | Some i, _ => Some i
         | None, [] => None
         | None, _ :: _ => Some O
         end) /\
    (forall e, e ≠ el -> WebSheet.page w' e = WebSheet.page w e) /\
    WebSheet.sorting (WebSheet.this w') =
      Some {| WebSheet.sort_element := el; WebSheet.sort_options := sorts |} /\
    WebSheet.filters (WebSheet.this w') = WebSheet.filters (WebSheet.this w) /\
    WebSheet.rows (WebSheet.this w') = WebSheet.rows (WebSheet.this w).
Proof.
  intros Hel. eexists. split; [reflexivity|]. simpl.
  rewrite update_eq, Hel, appendChild_fold_gen.
  split; [done|]. split; [|done]. intros e He. by apply update_ne.
Qed.

(** X8: setSortSelect appends, after the options the select already has, one
    option per registered sort, valued and labelled by its label, in
    registration order; a selection already made stays, a drop-down without
    selection takes its first option; the other controls, the filters and the
    rows are untouched and the sort control is recorded. *)
Theorem setSortSelect_appends (el : Dom.ElemId) (sorts : list WebSheet.webSheetSort)
  (w : WebSheet.World) (old : list Dom.OptionElement) (sel : option nat) :
  WebSheet.page w el = Dom.Select old sel ->
  exists w',
    WebSheet.setSortSelect el sorts w = (Ok tt, w') /\
    WebSheet.page w' el =
      Dom.Select
        (old ++ map (fun s => Dom.mkOption (WebSheet.label s) (WebSheet.label s)) sorts)
        (match sel, sorts with
         | Some i, _ => Some i
         | None, [] => None
         | None, _ :: _ => Some O
         end) /\
    (forall e, e ≠ el -> WebSheet.page w' e = WebSheet.page w e) /\
    WebSheet.sorting (WebSheet.this w') =
      Some {| WebSheet.sort_element := el; WebSheet.sort_options := sorts |} /\
    WebSheet.filters (WebSheet.this w') = WebSheet.filters (WebSheet.this w) /\
    WebSheet.rows (WebSheet.this w') = WebSheet.rows (WebSheet.this w).
Proof. apply setSortSelect_result. Qed.

Lemma setSortSelect_appends_witness :
  exists w',
    WebSheet.setSortSelect 1%nat Sample.sortOptions Sample.world_fresh = (Ok tt, w') /\
    WebSheet.page w' 1%nat =
      Dom.Select
        ([] ++ map (fun s => Dom.mkOption (WebSheet.label s) (WebSheet.label s))
                 Sample.sortOptions)
        (Some O) /\
    (forall e, e ≠ 1%nat -> WebSheet.page w' e = WebSheet.page Sample.world_fresh e) /\
    WebSheet.sorting (WebSheet.this w') =
      Some {| WebSheet.sort_element := 1%nat;
              WebSheet.sort_options := Sample.sortOptions |} /\
    WebSheet.filters (WebSheet.this w') = WebSheet.filters (WebSheet.this Sample.world_fresh) /\
    WebSheet.rows (WebSheet.this w') = WebSheet.rows (WebSheet.this Sample.world_fresh).
Proof.
  apply (setSortSelect_appends 1%nat Sample.sortOptions Sample.world_fresh [] None).
  reflexivity.
Defined.



(** X10: registering an empty list of sorts makes every later reading of the
    rows throw a TypeError, whatever the control holds, as soon as the filters
    return. *)
Theorem empty_sort_list_breaks_reading (el : Dom.ElemId) (w : WebSheet.World)
  (p : Dom.Page) (filtered : list (gmap string string)) :
  WebSheet.runFilters p (WebSheet.filters (WebSheet.this w))
    (WebSheet.rows (WebSheet.this w)) = Ok filtered ->
  exists w' msg,
    WebSheet.setSortSelect el [] w = (Ok tt, w') /\
    WebSheet.filteredRows (WebSheet.this w') p = Throw (TypeError msg).
Proof.
  intros Hrun. eexists _, _. split; [reflexivity|].
  unfold WebSheet.filteredRows. simpl. rewrite Hrun. reflexivity.
Qed.

Lemma empty_sort_list_breaks_reading_witness :
  exists w' msg,
    WebSheet.setSortSelect 1%nat [] Sample.world0 = (Ok tt, w') /\
    WebSheet.filteredRows (WebSheet.this w') (Sample.page0 "" "Any") =
      Throw (TypeError msg).
Proof.
  apply (empty_sort_list_breaks_reading 1%nat Sample.world0 (Sample.page0 "" "Any")
           [Sample.alice; Sample.bob]).
  reflexivity.
Defined.

(** *** Rebuilding options: failure, labels, repetition *)

Lemma collectOptions_succeeds (column : string) (deliminator : option string)
  (rows : list (gmap string string)) :
  forall init,
    succeeded (WebSheet.collectOptions column deliminator rows init) = false <->
    exists d r, deliminator = Some d /\ r ∈ rows /\ r !! column = None.
Proof.
  induction rows as [|row rows IH]; intros init; simpl.
  - split; [discriminate|]. intros (d & r & _ & Hr & _).
    by apply not_elem_of_nil in Hr.
  - destruct deliminator as [d|].
    + destruct (row !! column) as [cell|] eqn:Hcell.
      * rewrite IH. split.
        -- intros (d' & r & Hd & Hr & Hc). exists d', r.
           split; [done|]. split; [by right|done].
        -- intros (d' & r & Hd & [->|Hr]%elem_of_cons & Hc); [congruence|]. eauto.
      * split; [|done]. intros _. exists d, row. split; [done|]. split; [left|done].
    + rewrite IH. split; intros (d & r & Hd & _); discriminate.
Qed.

Lemma populateInput_select (rows : list (gmap string string))
  (input : WebSheet.webSheetInput) (p : Dom.Page)
  (old : list Dom.OptionElement) (sel : option nat) (opts : list (option string)) :
  p (WebSheet.element input) = Dom.Select old sel ->
  WebSheet.collectOptions (WebSheet.column input) (WebSheet.deliminator input)
    rows [] = Ok opts ->
  WebSheet.populateInput rows input p =
    match
      JS.find
        (fun o => String.eqb (Dom.opt_value o)
                    (if (length old =? 0)%nat then "Any"
                     else Dom.value (Dom.Select old sel)))
        (map WebSheet.createOption (Some "Any" :: JS.sort JS.defaultCompare opts))
    with
    | None =>
        Ok (Dom.update (WebSheet.element input)
              (Dom.set_value "Any"
                 (Dom.Select
                    (map WebSheet.createOption
                       (Some "Any" :: JS.sort JS.defaultCompare opts)) (Some O))) p)
    | Some _ =>
        Ok (Dom.update (WebSheet.element input)
              (Dom.set_value
                 (if (length old =? 0)%nat then "Any"
                  else Dom.value (Dom.Select old sel))
                 (Dom.Select
                    (map WebSheet.createOption
                       (Some "Any" :: JS.sort JS.defaultCompare opts)) (Some O))) p)
    end.
Proof.
  intros Hel Hrun. unfold WebSheet.populateInput.
  rewrite Hel. simpl Dom.options. cbv iota beta.
  rewrite Hrun. simpl. by rewrite appendChild_fold.
Qed.

(** What a rebuild that returns has done. *)
Lemma populateInput_inv (rows : list (gmap string string))
  (input : WebSheet.webSheetInput) (p p' : Dom.Page) :
  WebSheet.populateInput rows input p = Ok p' ->
  exists old sel opts chosen,
    p (WebSheet.element input) = Dom.Select old sel /\
    WebSheet.collectOptions (WebSheet.column input) (WebSheet.deliminator input)
      rows [] = Ok opts /\
    chosen ∈ map Dom.opt_value
      (map WebSheet.createOption (Some "Any" :: JS.sort JS.defaultCompare opts)) /\
    p' = Dom.update (WebSheet.element input)
           (Dom.Select
              (map WebSheet.createOption (Some "Any" :: JS.sort JS.defaultCompare opts))
              (Dom.indexOfValue chosen
                 (map WebSheet.createOption
                    (Some "Any" :: JS.sort JS.defaultCompare opts)))) p.
Proof.
  intros Hok.
  destruct (p (WebSheet.element input)) as [old sel|text] eqn:Hel;
    [|unfold WebSheet.populateInput in Hok; rewrite Hel in Hok; discriminate].
  destruct (WebSheet.collectOptions (WebSheet.column input)
              (WebSheet.deliminator input) rows []) as [opts|e] eqn:Hrun;
    [|unfold WebSheet.populateInput in Hok; rewrite Hel in Hok; simpl in Hok;
      rewrite Hrun in Hok; discriminate].
  rewrite (populateInput_select rows input p old sel opts Hel Hrun) in Hok.
  set (backup := if (length old =? 0)%nat then "Any" else _) in Hok.
  set (os := map WebSheet.createOption (Some "Any" :: JS.sort JS.defaultCompare opts)) in *.
  exists old, sel, opts.
  destruct (JS.find _ os) as [o|] eqn:Hfind.
  - exists backup. split; [done|]. split; [done|]. split; [|by injection Hok as <-].
    destruct (decide (backup ∈ map Dom.opt_value os)) as [|Hnot]; [done|].
    apply find_option_None in Hnot. congruence.
  - exists "Any". split; [done|]. split; [done|]. split; [left|by injection Hok as <-].
Qed.

(** X11: a rebuild fails exactly when the bound control is not a select, or
    when a delimiter is set and some row has no cell in the bound column;
    without delimiter, rows lacking the column never make it fail. *)
Theorem populateInput_fails_iff (rows : list (gmap string string))
  (input : WebSheet.webSheetInput) (p : Dom.Page) :
  succeeded (WebSheet.populateInput rows input p) = false <->
  Dom.options (p (WebSheet.element input)) = None \/
  exists d r, WebSheet.deliminator input = Some d /\ r ∈ rows /\
              r !! WebSheet.column input = None.
Proof.
  rewrite <- (collectOptions_succeeds _ _ rows []).
  unfold WebSheet.populateInput.
  destruct (p (WebSheet.element input)) as [old sel|text]; simpl.
  - destruct (WebSheet.collectOptions _ _ rows []) as [opts|e]; simpl.
    + destruct (JS.find _ _); simpl; split; try discriminate; intros [|]; discriminate.
    + split; [by right|done].
  - split; [by left|done].
Qed.



(** X13: rebuilding twice over the same rows is the same as rebuilding once:
    the second rebuild returns and leaves every control, options and
    selection, as the first one left it. *)
Theorem populateInput_idempotent (rows : list (gmap string string))
  (input : WebSheet.webSheetInput) (p p' : Dom.Page) :
  WebSheet.populateInput rows input p = Ok p' ->
  exists p'',
    WebSheet.populateInput rows input p' = Ok p'' /\ forall e, p'' e = p' e.
Proof.
  intros Hrun.
  destruct (populateInput_inv rows input p p' Hrun)
    as (old & sel & opts & chosen & _ & Hopts & Hchosen & ->).
  set (os := map WebSheet.createOption (Some "Any" :: JS.sort JS.defaultCompare opts)) in *.
  assert (Hvalue : Dom.value (Dom.Select os (Dom.indexOfValue chosen os)) = chosen)
    by (apply (value_set_value chosen os None); done).
  assert (Hfind : exists o,
    JS.find (fun o => String.eqb (Dom.opt_value o) chosen) os = Some o).
  { destruct (JS.find _ os) as [o|] eqn:Hf; [eauto|].
    apply find_option_None in Hf. done. }
  destruct Hfind as [o Hfind].
  eexists. split.
  - rewrite (populateInput_select rows input _ os (Dom.indexOfValue chosen os) opts);
      [|by rewrite update_eq|done].
    fold os. change (length os =? 0)%nat with false. cbv iota.
    rewrite Hvalue, Hfind. reflexivity.
  - intros e. unfold Dom.update. simpl. by destruct (bool_decide (e = _)).
Qed.

Lemma populateInput_idempotent_witness :
  exists p'',
    WebSheet.populateInput Sample.xyx (Sample.colInput None)
      (Dom.update 1%nat
         (Dom.Select
            [Dom.mkOption "Any" "Any"; Dom.mkOption "x" "x"; Dom.mkOption "y" "y"]
            (Some 2%nat))
         (Sample.page0 "" "y")) = Ok p'' /\
    forall e, p'' e =
      Dom.update 1%nat
        (Dom.Select
           [Dom.mkOption "Any" "Any"; Dom.mkOption "x" "x"; Dom.mkOption "y" "y"]
           (Some 2%nat))
        (Sample.page0 "" "y") e.
Proof.
  apply (populateInput_idempotent Sample.xyx (Sample.colInput None)
           (Sample.page0 "" "y")).
  reflexivity.
Defined.

(** *** The loop over the bound inputs *)

Lemma populateInput_elsewhere (rows : list (gmap string string))
  (input : WebSheet.webSheetInput) (p p' : Dom.Page) (e : Dom.ElemId) :
  WebSheet.populateInput rows input p = Ok p' ->
  e ≠ WebSheet.element input -> p' e = p e.
Proof.
  intros Hrun He.
  destruct (populateInput_inv rows input p p' Hrun) as (? & ? & ? & ? & _ & _ & _ & ->).
  by apply update_ne.
Qed.

(** X14: populateInputs changes no control other than those of the bound
    inputs, whether it returns or throws. *)
Theorem populateInputs_touches_bound_only (rows : list (gmap string string))
  (inputs : list WebSheet.webSheetInput) (p : Dom.Page) (e : Dom.ElemId) :
  e ∉ map WebSheet.element inputs ->
  snd (WebSheet.populateInputs_loop rows inputs p) e = p e.
Proof.
  revert p. induction inputs as [|input inputs IH]; intros p Hnot; simpl; [done|].
  apply not_elem_of_cons in Hnot as [Hne Hnot].
  destruct (WebSheet.populateInput rows input p) as [p'|err] eqn:Hrun; [|done].
  rewrite (IH p' Hnot). by eapply populateInput_elsewhere.
Qed.

Lemma populateInputs_touches_bound_only_witness :
  snd (WebSheet.populateInputs_loop Sample.xyx [Sample.colInput None]
         (Sample.page0 "" "y")) 0%nat = Sample.page0 "" "y" 0%nat.
Proof.
  apply (populateInputs_touches_bound_only Sample.xyx [Sample.colInput None]
           (Sample.page0 "" "y") 0%nat).
  simpl. intros [H|H]%elem_of_cons; [discriminate|]. by apply not_elem_of_nil in H.
Defined.

(** X15: the loop stops at the first input whose rebuild throws: the inputs
    before it keep their rebuilt options, and the inputs after it are not
    rebuilt at all. *)
Theorem populateInputs_stops_at_failure (rows : list (gmap string string))
  (before after : list WebSheet.webSheetInput) (failing : WebSheet.webSheetInput)
  (p p1 : Dom.Page) (e : Exn) :
  WebSheet.populateInputs_loop rows before p = (Ok tt, p1) ->
  WebSheet.populateInput rows failing p1 = Throw e ->
  WebSheet.populateInputs_loop rows (before ++ failing :: after) p = (Throw e, p1).
Proof.
  revert p. induction before as [|input before IH]; intros p; simpl.
  - intros [= <-] Hfail. by rewrite Hfail.
  - destruct (WebSheet.populateInput rows input p) as [p'|err]; [|discriminate].
    apply IH.
Qed.

Lemma populateInputs_stops_at_failure_witness :
  WebSheet.populateInputs_loop [Sample.bob; Sample.nameless]
    ([{| WebSheet.element := 1%nat; WebSheet.column := "dept";
         WebSheet.deliminator := Some "," |}]
     ++ {| WebSheet.element := 3%nat; WebSheet.column := "name";
           WebSheet.deliminator := Some "," |}
     :: [{| WebSheet.element := 4%nat; WebSheet.column := "dept";
            WebSheet.deliminator := None |}])
    Sample.page_fresh =
  (Throw (TypeError "Cannot read properties of undefined (reading 'split')"),
   Dom.update 1%nat
     (Dom.Select
        [Dom.mkOption "Any" "Any"; Dom.mkOption "Ops" "Ops";
         Dom.mkOption "Sales" "Sales"] (Some O))
     Sample.page_fresh).
Proof.
  apply (populateInputs_stops_at_failure [Sample.bob; Sample.nameless]); reflexivity.
Defined.

(** *** Rendering *)

Lemma string_app_assoc (s t u : string) : (s +:+ t) +:+ u = s +:+ (t +:+ u).
Proof.
  induction s as [|a s IH]; [reflexivity|].
  change (String a ((s +:+ t) +:+ u) = String a (s +:+ (t +:+ u))). by rewrite IH.
Qed.

Lemma string_app_nil_r (s : string) : s +:+ "" = s.
Proof.
  induction s as [|a s IH]; [reflexivity|].
  change (String a (s +:+ "") = String a s). by rewrite IH.
Qed.

Lemma fold_left_render {A} (f : A -> string) (rs : list A) :
  forall init,
    fold_left (fun acc row => acc +:+ f row) rs init =
    init +:+ fold_right (fun row acc => f row +:+ acc) "" rs.
Proof.
  induction rs as [|r rs IH]; intros init; simpl.
  - by rewrite string_app_nil_r.
  - by rewrite IH, string_app_assoc.
Qed.

(** X16: when the rows can be read and an output surface is configured,
    populateResults replaces the content of that surface, whatever it was, by
    the template's fragments for the filtered and sorted rows, joined in
    order; it changes nothing else, and rendering again changes nothing. *)
Theorem populateResults_renders (w : WebSheet.World)
  (rs : list (gmap string string)) (out : Dom.ElemId) :
  WebSheet.filteredRows (WebSheet.this w) (WebSheet.page w) = Ok rs ->
  WebSheet.output (WebSheet.options (WebSheet.this w)) = Some out ->
  exists w',
    WebSheet.populateResults w = (Ok tt, w') /\
    WebSheet.this w' = WebSheet.this w /\
    WebSheet.page w' = WebSheet.page w /\
    WebSheet.console w' = WebSheet.console w /\
    WebSheet.surface w' =
      <[out := fold_right
                 (fun row acc => WebSheet.template_fn (WebSheet.this w) row +:+ acc)
                 "" rs]> (WebSheet.surface w) /\
    WebSheet.populateResults w' = (Ok tt, w').
Proof.
  intros Hrows Hout. unfold WebSheet.populateResults at 1. rewrite Hrows, Hout.
  eexists. split; [reflexivity|]. simpl.
  rewrite fold_left_render. change ("" +:+ ?s) with s.
  repeat (split; [done|]).
  unfold WebSheet.populateResults. simpl. rewrite Hrows, Hout, fold_left_render.
  change ("" +:+ ?s) with s. by rewrite insert_insert_eq.
Qed.

Lemma populateResults_renders_witness :
  exists w',
    WebSheet.populateResults Sample.world0 = (Ok tt, w') /\
    WebSheet.this w' = WebSheet.this Sample.world0 /\
    WebSheet.page w' = WebSheet.page Sample.world0 /\
    WebSheet.console w' = WebSheet.console Sample.world0 /\
    WebSheet.surface w' =
      <[2%nat := fold_right
                   (fun row acc =>
                      WebSheet.template_fn (WebSheet.this Sample.world0) row +:+ acc)
                   "" [Sample.alice; Sample.bob]]> (WebSheet.surface Sample.world0) /\
    WebSheet.populateResults w' = (Ok tt, w').
Proof.
  apply (populateResults_renders Sample.world0 [Sample.alice; Sample.bob] 2%nat);
    reflexivity.
Defined.

Example render_names :
  WebSheet.surface (snd (WebSheet.populateResults Sample.world0)) !! 2%nat =
    Some "Alicebob".
Proof. reflexivity. Qed.

(** Without a configured output surface, populateResults throws a
    TypeError after reading the rows and leaves everything as it was; an error
    of a filter or of the sort step is thrown likewise, before anything is
    written. *)
Lemma populateResults_fails_unchanged (w : WebSheet.World) :
  (WebSheet.output (WebSheet.options (WebSheet.this w)) = None \/
   succeeded (WebSheet.filteredRows (WebSheet.this w) (WebSheet.page w)) = false) ->
  exists e, WebSheet.populateResults w = (Throw e, w).
Proof.
  unfold WebSheet.populateResults.
  destruct (WebSheet.filteredRows _ _) as [rs|e]; [|eauto].
  intros [->|]; [eauto|discriminate].
Qed.

Lemma populateResults_fails_unchanged_witness :
  exists e,
    WebSheet.populateResults
      {| WebSheet.this := Sample.sheet_sorted [Sample.alice; Sample.bob];
         WebSheet.page := Sample.page0 "" "Nonexistent";
         WebSheet.surface := {[ 2%nat := "stale" ]}; WebSheet.console := [] |} =
    (Throw e,
     {| WebSheet.this := Sample.sheet_sorted [Sample.alice; Sample.bob];
        WebSheet.page := Sample.page0 "" "Nonexistent";
        WebSheet.surface := {[ 2%nat := "stale" ]}; WebSheet.console := [] |}).
Proof.
  apply (populateResults_fails_unchanged
    {| WebSheet.this := Sample.sheet_sorted [Sample.alice; Sample.bob];
       WebSheet.page := Sample.page0 "" "Nonexistent";
       WebSheet.surface := {[ 2%nat := "stale" ]}; WebSheet.console := [] |}).
  right. reflexivity.
Defined.

(** *** A load *)

(** X17: a load whose rebuild of the inputs throws has already replaced the
    rows, keeps the inputs rebuilt before the failure, and does not render:
    the output surfaces keep their previous content. *)
Theorem sheetrockCallback_failed_rebuild (w : WebSheet.World)
  (response_rows : list WebSheet.RawRow) (ls : list string)
  (e : Exn) (p1 : Dom.Page) :
  WebSheet.labels (WebSheet.options (WebSheet.this w)) = Some ls ->
  WebSheet.populateInputs_loop (WebSheet.loadRows ls response_rows)
    (WebSheet.inputs (WebSheet.this w)) (WebSheet.page w) = (Throw e, p1) ->
  exists w',
    WebSheet.sheetrockCallback None response_rows w = (Throw e, w') /\
    WebSheet.rows (WebSheet.this w') = WebSheet.loadRows ls response_rows /\
    WebSheet.page w' = p1 /\
    WebSheet.surface w' = WebSheet.surface w /\
    WebSheet.console w' = WebSheet.console w.
Proof.
  intros Hls Hloop. unfold WebSheet.sheetrockCallback. rewrite Hls.
  unfold WebSheet.bind, WebSheet.modify, WebSheet.populateInputs. simpl.
  rewrite Hloop. eexists. split; [reflexivity|]. done.
Qed.

Lemma sheetrockCallback_failed_rebuild_witness :
  exists w',
    WebSheet.sheetrockCallback None
      [{| WebSheet.cells := Sample.bob |}; {| WebSheet.cells := Sample.nameless |}]
      Sample.world_bound = (Throw (TypeError
        "Cannot read properties of undefined (reading 'split')"), w') /\
    WebSheet.rows (WebSheet.this w') =
      WebSheet.loadRows Sample.schema
        [{| WebSheet.cells := Sample.bob |}; {| WebSheet.cells := Sample.nameless |}] /\
    WebSheet.page w' = Sample.page_fresh /\
    WebSheet.surface w' = WebSheet.surface Sample.world_bound /\
    WebSheet.console w' = WebSheet.console Sample.world_bound.
Proof.
  apply (sheetrockCallback_failed_rebuild Sample.world_bound
    [{| WebSheet.cells := Sample.bob |}; {| WebSheet.cells := Sample.nameless |}]
    Sample.schema); reflexivity.
Defined.

Lemma sheetrockCallback_success (w : WebSheet.World)
  (response_rows : list WebSheet.RawRow) (ls : list string) (p1 : Dom.Page)
  (rs : list (gmap string string)) (out : Dom.ElemId) :
  WebSheet.labels (WebSheet.options (WebSheet.this w)) = Some ls ->
  WebSheet.output (WebSheet.options (WebSheet.this w)) = Some out ->
  WebSheet.populateInputs_loop (WebSheet.loadRows ls response_rows)
    (WebSheet.inputs (WebSheet.this w)) (WebSheet.page w) = (Ok tt, p1) ->
  WebSheet.filteredRows
    (WebSheet.set_rows (WebSheet.loadRows ls response_rows) (WebSheet.this w)) p1 =
    Ok rs ->
  exists w',
    WebSheet.sheetrockCallback None response_rows w = (Ok tt, w') /\
    WebSheet.rows (WebSheet.this w') = WebSheet.loadRows ls response_rows /\
    WebSheet.page w' = p1 /\
    WebSheet.surface w' =
      <[out := fold_right
                 (fun row acc => WebSheet.template_fn (WebSheet.this w) row +:+ acc)
                 "" rs]> (WebSheet.surface w).
Proof.
  intros Hls Hout Hloop Hrows. unfold WebSheet.sheetrockCallback. rewrite Hls.
  unfold WebSheet.bind, WebSheet.modify, WebSheet.populateInputs. simpl.
  rewrite Hloop. unfold WebSheet.populateResults. simpl.
  rewrite Hrows, Hout. eexists. split; [reflexivity|]. simpl.
  rewrite fold_left_render. done.
Qed.

(** X18: a load that succeeds replaces the rows by the loaded ones, leaves the
    page as the rebuild of the inputs made it, and gives the output surface
    the rendering of the new rows as filtered and sorted on that page. *)
Theorem sheetrockCallback_loads_and_renders (w : WebSheet.World)
  (response_rows : list WebSheet.RawRow) (ls : list string) (p1 : Dom.Page)
  (rs : list (gmap string string)) (out : Dom.ElemId) :
  WebSheet.labels (WebSheet.options (WebSheet.this w)) = Some ls ->
  WebSheet.output (WebSheet.options (WebSheet.this w)) = Some out ->
  WebSheet.populateInputs_loop (WebSheet.loadRows ls response_rows)
    (WebSheet.inputs (WebSheet.this w)) (WebSheet.page w) = (Ok tt, p1) ->
  WebSheet.filteredRows
    (WebSheet.set_rows (WebSheet.loadRows ls response_rows) (WebSheet.this w)) p1 =
    Ok rs ->
  exists w',
    WebSheet.sheetrockCallback None response_rows w = (Ok tt, w') /\
    WebSheet.rows (WebSheet.this w') = WebSheet.loadRows ls response_rows /\
    WebSheet.page w' = p1 /\
    WebSheet.surface w' =
      <[out := fold_right
                 (fun row acc => WebSheet.template_fn (WebSheet.this w) row +:+ acc)
                 "" rs]> (WebSheet.surface w).
Proof. apply sheetrockCallback_success. Qed.

Lemma sheetrockCallback_loads_and_renders_witness :
  exists w',
    WebSheet.sheetrockCallback None
      [{| WebSheet.cells := Sample.header |}; {| WebSheet.cells := Sample.bob |};
       {| WebSheet.cells := Sample.alice |}]
      Sample.world_fresh = (Ok tt, w') /\
    WebSheet.rows (WebSheet.this w') =
      WebSheet.loadRows Sample.schema
        [{| WebSheet.cells := Sample.header |}; {| WebSheet.cells := Sample.bob |};
         {| WebSheet.cells := Sample.alice |}] /\
    WebSheet.page w' = Sample.page_fresh /\
    WebSheet.surface w' =
      <[2%nat := fold_right
                   (fun row acc =>
                      WebSheet.template_fn (WebSheet.this Sample.world_fresh) row +:+ acc)
                   "" [Sample.bob; Sample.alice]]> (WebSheet.surface Sample.world_fresh).
Proof.
  apply (sheetrockCallback_loads_and_renders Sample.world_fresh
    [{| WebSheet.cells := Sample.header |}; {| WebSheet.cells := Sample.bob |};
     {| WebSheet.cells := Sample.alice |}] Sample.schema); reflexivity.
Defined.

(** *** The options offered and the rows they select *)

Lemma columnFilter_delimited (el : Dom.ElemId) (column sep : string)
  (p : Dom.Page) (rows : list (gmap string string)) :
  Dom.value (p el) ≠ "Any" ->
  (forall r, r ∈ rows -> is_Some (r !! column)) ->
  WebSheet.columnFilter el column (Some sep) p rows =
    Ok (List.filter
          (fun r => bool_decide (someSegmentIs sep (Dom.value (p el)) column r)) rows).
Proof.
  intros Hv Hcol. unfold WebSheet.columnFilter.
  apply String.eqb_neq in Hv. rewrite Hv.
  apply filter_pure. intros r Hr. destruct (Hcol r Hr) as [cell Hcell].
  rewrite Hcell. by apply segment_callback.
Qed.

Lemma List_filter_nil {A} (f : A -> bool) (l : list A) :
  (forall x, x ∈ l -> f x = false) -> List.filter f l = [].
Proof.
  induction l as [|x l IH]; simpl; intros Hf; [done|].
  rewrite (Hf x) by left. apply IH. intros y Hy. apply Hf. by right.
Qed.

(** X19: over rows that all have the bound column, the option list and the
    column filter agree: choosing a value the column contributes to the option
    list keeps at least one row, and a value other than "Any" that the column
    does not contribute keeps none. *)
Theorem options_and_filter_agree (el : Dom.ElemId) (column : string)
  (separator : option string) (p : Dom.Page) (rows : list (gmap string string)) :
  (forall r, r ∈ rows -> is_Some (r !! column)) ->
  (columnValue column separator rows (Dom.value (p el)) ->
   exists kept r,
     WebSheet.columnFilter el column separator p rows = Ok kept /\ r ∈ kept) /\
  (~ columnValue column separator rows (Dom.value (p el)) ->
   Dom.value (p el) ≠ "Any" ->
   WebSheet.columnFilter el column separator p rows = Ok []).
Proof.
  intros Hcol. split.
  - intros (row & cell & Hrow & Hcell & Hv).
    destruct (decide (Dom.value (p el) = "Any")) as [HAny|HAny].
    { exists rows, row. split; [|done]. unfold WebSheet.columnFilter. by rewrite HAny. }
    destruct separator as [sep|].
    + rewrite columnFilter_delimited by done.
      eexists _, row. split; [done|].
      apply list_elem_of_In, filter_In. split; [by apply list_elem_of_In|].
      apply bool_decide_eq_true. destruct Hv as (seg & Hseg & ->).
      exists cell, seg. done.
    + rewrite columnFilter_exact. apply String.eqb_neq in HAny. rewrite HAny.
      eexists _, row. split; [done|].
      apply list_elem_of_In, filter_In. split; [by apply list_elem_of_In|].
      apply bool_decide_eq_true. congruence.
  - intros Hnot HAny. destruct separator as [sep|].
    + rewrite columnFilter_delimited by done. f_equal.
      apply List_filter_nil. intros r Hr. apply bool_decide_eq_false.
      intros (cell & seg & Hcell & Hseg & Hv). apply Hnot.
      exists r, cell. split; [done|]. split; [done|]. eauto.
    + rewrite columnFilter_exact. apply String.eqb_neq in HAny. rewrite HAny. f_equal.
      apply List_filter_nil. intros r Hr. apply bool_decide_eq_false.
      intros Hcell. apply Hnot. exists r, (Dom.value (p el)). done.
Qed.

Lemma options_and_filter_agree_witness :
  exists kept r,
    WebSheet.columnFilter 1%nat "dept" (Some ",") (Sample.page0 "" "Sales")
      [Sample.bob; Sample.partial; Sample.nameless] = Ok kept /\ r ∈ kept.
Proof.
  apply (options_and_filter_agree 1%nat "dept" (Some ",") (Sample.page0 "" "Sales")
           [Sample.bob; Sample.partial; Sample.nameless]).
  - intros r Hr.
    repeat (apply elem_of_cons in Hr as [->|Hr]; [vm_compute; eauto|]).
    by apply not_elem_of_nil in Hr.
  - exists Sample.bob, "Ops, Sales". split; [left|]. split; [reflexivity|].
    exists " Sales". split; [|reflexivity]. right. left.
Defined.

(** *** From registration to the first rendering *)

(** X20: on an instance without filter or sort, bind a column filter to a
    select that has no option yet and a search filter to a blank text box,
    then load rows that all have the filtered column: the select ends on
    "Any", and the output surface shows every loaded row, in loading order. *)
Theorem first_load_renders_every_row (w : WebSheet.World)
  (sel box out : Dom.ElemId) (column : string) (separator : option string)
  (columns ls : list string) (response_rows : list WebSheet.RawRow) :
  WebSheet.filters (WebSheet.this w) = [] ->
  WebSheet.inputs (WebSheet.this w) = [] ->
  WebSheet.sorting (WebSheet.this w) = None ->
  WebSheet.labels (WebSheet.options (WebSheet.this w)) = Some ls ->
  WebSheet.output (WebSheet.options (WebSheet.this w)) = Some out ->
  WebSheet.page w sel = Dom.Select [] None ->
  Forall (fun c => JS.isWhiteSpace c = true)
    (String.list_ascii_of_string (Dom.value (WebSheet.page w box))) ->
  sel ≠ box ->
  (forall r, r ∈ WebSheet.loadRows ls response_rows -> is_Some (r !! column)) ->
  exists w',
    WebSheet.bind (WebSheet.selectColumnFilter sel column separator)
      (fun _ => WebSheet.bind (WebSheet.searchFilter box columns)
         (fun _ => WebSheet.sheetrockCallback None response_rows)) w = (Ok tt, w') /\
    Dom.value (WebSheet.page w' sel) = "Any" /\
    WebSheet.surface w' =
      <[out := fold_right
                 (fun row acc => WebSheet.template_fn (WebSheet.this w) row +:+ acc)
                 "" (WebSheet.loadRows ls response_rows)]> (WebSheet.surface w).
Proof.
  intros Hfilters Hinputs Hsorting Hls Hout Hsel Hblank Hne Hcol.
  set (input := {| WebSheet.element := sel; WebSheet.column := column;
                   WebSheet.deliminator := separator |}).
  set (w2 := {| WebSheet.this :=
                  WebSheet.push_filter (WebSheet.searchCallback box columns)
                    (WebSheet.push_input input
                       (WebSheet.push_filter (WebSheet.columnFilter sel column separator)
                          (WebSheet.this w)));
                WebSheet.page := WebSheet.page w;
                WebSheet.surface := WebSheet.surface w;
                WebSheet.console := WebSheet.console w |}).
  change (exists w',
    WebSheet.sheetrockCallback None response_rows w2 = (Ok tt, w') /\
    Dom.value (WebSheet.page w' sel) = "Any" /\
    WebSheet.surface w' =
      <[out := fold_right
                 (fun row acc => WebSheet.template_fn (WebSheet.this w) row +:+ acc)
                 "" (WebSheet.loadRows ls response_rows)]> (WebSheet.surface w)).
  destruct (populateInput_rebuild (WebSheet.loadRows ls response_rows) input
              (WebSheet.page w) [] None Hsel Hcol)
    as (tail & p1 & Hrun & Helse & _ & _ & _ & Hvalue).
  assert (Dom.value (p1 sel) = "Any") as HAny.
  { change (WebSheet.element input) with sel in Hvalue. rewrite Hvalue. cbv zeta.
    change (length (@nil Dom.OptionElement) =? 0)%nat with true. cbv iota.
    by rewrite bool_decide_eq_true_2 by left. }
  clear Hvalue.
  destruct (sheetrockCallback_success w2 response_rows ls p1
              (WebSheet.loadRows ls response_rows) out) as (w' & Hcb & _ & Hpage & Hsurf).
  - done.
  - done.
  - simpl. rewrite Hinputs. simpl. by rewrite Hrun.
  - unfold WebSheet.filteredRows. simpl. rewrite Hfilters, Hsorting. simpl.
    unfold WebSheet.columnFilter at 1. rewrite HAny. simpl.
    unfold WebSheet.searchCallback, JS.trim.
    rewrite (Helse box) by done. by rewrite (trimStart_blank _ Hblank).
  - exists w'. split; [done|]. rewrite Hpage. split; [done|]. exact Hsurf.
Qed.

Lemma first_load_renders_every_row_witness :
  exists w',
    WebSheet.bind (WebSheet.selectColumnFilter 1%nat "dept" (Some ","))
      (fun _ => WebSheet.bind (WebSheet.searchFilter 0%nat ["name"])
         (fun _ => WebSheet.sheetrockCallback None
            [{| WebSheet.cells := Sample.header |}; {| WebSheet.cells := Sample.bob |};
             {| WebSheet.cells := Sample.alice |}]))
      Sample.world_fresh = (Ok tt, w') /\
    Dom.value (WebSheet.page w' 1%nat) = "Any" /\
    WebSheet.surface w' =
      <[2%nat := fold_right
                   (fun row acc =>
                      WebSheet.template_fn (WebSheet.this Sample.world_fresh) row +:+ acc)
                   ""
                   (WebSheet.loadRows Sample.schema
                      [{| WebSheet.cells := Sample.header |};
                       {| WebSheet.cells := Sample.bob |};
                       {| WebSheet.cells := Sample.alice |}])]>
        (WebSheet.surface Sample.world_fresh).
Proof.
  apply (first_load_renders_every_row Sample.world_fresh 1%nat 0%nat 2%nat "dept"
           (Some ",") ["name"] Sample.schema).
  - reflexivity.
  - reflexivity.
  - reflexivity.
  - reflexivity.
  - reflexivity.
  - reflexivity.
  - simpl. constructor.
  - lia.
  - intros r Hr. vm_compute in Hr.
    repeat (apply elem_of_cons in Hr as [->|Hr]; [vm_compute; eauto|]).
    by apply not_elem_of_nil in Hr.
Defined.

(** *** The earlier variant: options pile up *)

(** X21: where the current populateInputs rebuilds a select, the earlier
    variant returns too, touches no other control, and leaves the select with
    all its previous options followed by the options of the current variant;
    on a select that had no option both variants leave the same select. *)
Theorem legacy_populateInput_keeps_old_options (rows : list (gmap string string))
  (input : WebSheet.webSheetInput) (p current : Dom.Page)
  (old : list Dom.OptionElement) (sel : option nat) :
  p (WebSheet.element input) = Dom.Select old sel ->
  WebSheet.populateInput rows input p = Ok current ->
  exists legacy,
    Legacy.populateInput rows input p = Ok legacy /\
    (forall e, e ≠ WebSheet.element input -> legacy e = p e) /\
    default [] (Dom.options (legacy (WebSheet.element input))) =
      (old ++ default [] (Dom.options (current (WebSheet.element input))))%list /\
    (old = [] -> legacy (WebSheet.element input) = current (WebSheet.element input)).
Proof.
  intros Hel Hcur.
  destruct (WebSheet.collectOptions (WebSheet.column input)
              (WebSheet.deliminator input) rows []) as [opts|e] eqn:Hrun;
    [|unfold WebSheet.populateInput in Hcur; rewrite Hel in Hcur; simpl in Hcur;
      rewrite Hrun in Hcur; discriminate].
  rewrite (populateInput_select rows input p old sel opts Hel Hrun) in Hcur.
  set (backup := if (length old =? 0)%nat then "Any" else _) in Hcur.
  set (os := map WebSheet.createOption (Some "Any" :: JS.sort JS.defaultCompare opts)) in *.
  assert (Hleg : Legacy.populateInput rows input p =
    match JS.find (fun o => String.eqb (Dom.opt_value o) backup) (old ++ os) with
    | None =>
        Ok (Dom.update (WebSheet.element input)
              (Dom.Select (old ++ os) (Dom.indexOfValue "Any" (old ++ os))) p)
    | Some _ =>
        Ok (Dom.update (WebSheet.element input)
              (Dom.Select (old ++ os) (Dom.indexOfValue backup (old ++ os))) p)
    end).
  { unfold Legacy.populateInput. rewrite Hel.
    change (Dom.options (Dom.Select old sel)) with (Some old). cbv iota beta.
    rewrite Hrun, bind_Ok. cbv beta zeta.
    rewrite appendChild_fold_gen. fold os. fold backup.
    change (default [] (Dom.options (Dom.Select ?a ?b))) with a.
    by destruct (JS.find _ (old ++ os)). }
  assert (Hsame : old = [] ->
    Legacy.populateInput rows input p = Ok current).
  { intros ->. rewrite Hleg. rewrite <- Hcur. change ([] ++ os)%list with os.
    by destruct (JS.find _ os). }
  assert (Hopts : default [] (Dom.options (current (WebSheet.element input))) = os).
  { destruct (JS.find _ os); injection Hcur as <-; by rewrite update_eq. }
  rewrite Hopts.
  destruct (JS.find _ (old ++ os)) eqn:Hfind; eexists; (split; [exact Hleg|]);
    (split; [intros e0 He0; by apply update_ne|]);
    rewrite update_eq; (split; [done|]); intros Hold;
    specialize (Hsame Hold); rewrite Hleg in Hsame; injection Hsame as <-;
    by rewrite update_eq.
Qed.

Lemma legacy_populateInput_keeps_old_options_witness :
  exists legacy,
    Legacy.populateInput Sample.xyx (Sample.colInput None) (Sample.page0 "" "y") =
      Ok legacy /\
    (forall e, e ≠ 1%nat -> legacy e = Sample.page0 "" "y" e) /\
    default [] (Dom.options (legacy 1%nat)) =
      ([Dom.mkOption "Any" "Any"; Dom.mkOption "y" "y"] ++
       default []
         (Dom.options
            (Dom.update 1%nat
               (Dom.Select
                  [Dom.mkOption "Any" "Any"; Dom.mkOption "x" "x"; Dom.mkOption "y" "y"]
                  (Some 2%nat))
               (Sample.page0 "" "y") 1%nat)))%list /\
    ([Dom.mkOption "Any" "Any"; Dom.mkOption "y" "y"] = [] ->
     legacy 1%nat =
       Dom.update 1%nat
         (Dom.Select
            [Dom.mkOption "Any" "Any"; Dom.mkOption "x" "x"; Dom.mkOption "y" "y"]
            (Some 2%nat))
         (Sample.page0 "" "y") 1%nat).
Proof.
  apply (legacy_populateInput_keeps_old_options Sample.xyx (Sample.colInput None)
           (Sample.page0 "" "y") _ _ (Some 1%nat)); reflexivity.
Defined.

Example legacy_options_after_two_loads :
  Sample.rebuilt
    (Legacy.populateInput Sample.xyx (Sample.colInput None) Sample.page_fresh
     ≫= Legacy.populateInput Sample.xyx (Sample.colInput None)) 1%nat =
  Some (["Any"; "x"; "y"; "Any"; "x"; "y"], "Any").
Proof. reflexivity. Qed.

(** *** A failed fetch *)



(** *** Choosing among the registered sorts *)


